(** * Dictaphone: the transcription session and its helpers

    A shallow embedding of the dictation plugin: the sentence transform
    applied to final transcripts, the rewrite request, the microphone's
    re-chunker and the transcriber's handlers, followed by the properties
    checked against them.

    Conventions.
    - A JavaScript string is a [string]; its characters are code units
      below 256.  In that range the Unicode property [Sentence_Terminal]
      holds of '!', '.' and '?' only, and case-insensitive matching of the
      letters of "new line" is ASCII case folding.
    - A line or column number is a [Z]; [text.length] is
      [Z.of_nat (String.length text)].
    - A handler is a computation in the monad [JS]: it reads and writes the
      world and completes normally or throws; a throw keeps the writes made
      before it.  An [async] method runs up to its first [await] inside the
      call; what follows the [await] is a second computation, run by the
      event loop when the awaited promise settles.
    - The host editor is a class of operations, [EditorHost]; the world
      holds one editor, which its host may change between two events. *)

From Stdlib Require Import ZArith List String Ascii Bool Lia.
Import ListNotations.
Local Open Scope string_scope.
Local Open Scope bool_scope.

(* ===================================================================== *)
(** * Part I: the program *)
(* ===================================================================== *)

(* --------------------------------------------------------------------- *)
(** ** Text helpers of AssemblyAITranscriber.ts *)
(* --------------------------------------------------------------------- *)

Module Text.

(** The line feed character and the paragraph break ['\n\n']. *)
Definition LF : ascii := ascii_of_nat 10.
Definition SPACE : ascii := " "%char.
Definition DQUOTE : ascii := ascii_of_nat 34.
Definition paragraphBreak : string := String LF (String LF EmptyString).

(** [\p{Sentence_Terminal}] on code units below 256. *)
Definition Sentence_Terminal (c : ascii) : bool :=
  Ascii.eqb c "!" || Ascii.eqb c "." || Ascii.eqb c "?".

(** [text.replace(/^ +/, '')]. *)
Fixpoint trimStart (text : string) : string :=
  match text with
  | String c rest => if Ascii.eqb c SPACE then trimStart rest else text
  | EmptyString => EmptyString
  end.

(** [text.replace(/ +$/, '')]. *)
Fixpoint trimEnd (text : string) : string :=
  match text with
  | EmptyString => EmptyString
  | String c rest =>
      match trimEnd rest with
      | EmptyString => if Ascii.eqb c SPACE then EmptyString else String c EmptyString
      | rest' => String c rest'
      end
  end.

(** [trimSpaces]: [text.replace(/^ +| +$/g, '')]. *)
Definition trimSpaces (text : string) : string := trimEnd (trimStart text).

(** [text.slice(from, to)] for [0 <= from], [to <= text.length]. *)
Definition slice (text : string) (from to : nat) : string :=
  substring from (to - from) text.

(** [text.matchAll(/\p{Sentence_Terminal}/gu)]: the index of every match,
    in order; each match is one character long. *)
Fixpoint matchAll_from (index : nat) (text : string) : list nat :=
  match text with
  | EmptyString => []
  | String c rest =>
      if Sentence_Terminal c then index :: matchAll_from (S index) rest
      else matchAll_from (S index) rest
  end.

Definition matchAll (text : string) : list nat := matchAll_from 0 text.

(** The [for (const match of matches)] loop of [stringToSentences]: the
    sentences pushed and the final value of [lastIndex]. *)
Fixpoint sentenceLoop (text : string) (matches : list nat) (lastIndex : nat)
  : list string * nat :=
  match matches with
  | [] => ([], lastIndex)
  | index :: matches' =>
      let nextIndex := index + 1 in
      let '(sentences, final) := sentenceLoop text matches' nextIndex in
      (trimSpaces (slice text lastIndex nextIndex) :: sentences, final)
  end.

(** [stringToSentences]. *)
Definition stringToSentences (text : string) : list string :=
  let '(sentences, lastIndex) := sentenceLoop text (matchAll text) 0 in
  let lastSentence := trimSpaces (slice text lastIndex (String.length text)) in
  match lastSentence with
  | EmptyString => sentences
  | _ => sentences ++ [lastSentence]
  end.

(** Case folding of one code unit: 'A'..'Z' to 'a'..'z'. *)
Definition toLowerCase (c : ascii) : ascii :=
  let n := nat_of_ascii c in
  if (65 <=? n)%nat && (n <=? 90)%nat then ascii_of_nat (n + 32) else c.

(** Matching a lower-case literal at the start of [s], ignoring case; the
    rest of [s] when it matches. *)
Fixpoint matchLiteral (literal s : string) : option string :=
  match literal, s with
  | EmptyString, _ => Some s
  | String p literal', String c s' =>
      if Ascii.eqb (toLowerCase c) p then matchLiteral literal' s' else None
  | String _ _, EmptyString => None
  end.

(** One alternative of the command pattern followed by
    [\p{Sentence_Terminal}]. *)
Definition literalThenTerminal (literal s : string) : bool :=
  match matchLiteral literal s with
  | Some (String c _) => Sentence_Terminal c
  | _ => false
  end.

(** [/^(new line|newline)\p{Sentence_Terminal}/iu.test(sentence)]. *)
Definition isNewLineCommand (sentence : string) : bool :=
  literalThenTerminal "new line" sentence || literalThenTerminal "newline" sentence.

(** The one element of [transforms]. *)
Definition newLineTransform (text : string) : string :=
  String.concat " "
    (map (fun sentence =>
            if isNewLineCommand sentence then paragraphBreak else sentence)
         (stringToSentences text)).

Definition transforms : list (string -> string) := [newLineTransform].

(** [for (const transform of transforms) text = transform(text)]. *)
Definition applyTransforms (text : string) : string :=
  fold_left (fun t transform => transform t) transforms text.

(** [insert.endsWith('\n')]. *)
Fixpoint endsWithLF (s : string) : bool :=
  match s with
  | EmptyString => false
  | String c EmptyString => Ascii.eqb c LF
  | String _ rest => endsWithLF rest
  end.

End Text.

(* --------------------------------------------------------------------- *)
(** ** Microphone.ts: the re-chunker *)
(* --------------------------------------------------------------------- *)

Module Microphone.

Definition SAMPLE_RATE : Z := 16000.

(** An [Int16Array] is a view on an [ArrayBuffer]: the samples stored in
    the buffer, the index of the view's first sample and the number of
    samples it covers.  [subarray] makes a new view on the SAME buffer;
    [.buffer] returns the whole buffer, whatever the view covers. *)
Record Int16Array := {
  buffer : list Z;
  byteOffset : nat;      (* counted in samples *)
  length : nat
}.

(** The samples a view covers. *)
Definition elements (a : Int16Array) : list Z :=
  firstn (length a) (skipn (byteOffset a) (buffer a)).

(** [new Int16Array(data)]: a view of a fresh buffer, covering all of it. *)
Definition newInt16Array (data : list Z) : Int16Array :=
  {| buffer := data; byteOffset := 0; length := List.length data |}.

(** [mergeBuffers]: a fresh array holding [lhs] then [rhs]. *)
Definition mergeBuffers (lhs rhs : Int16Array) : Int16Array :=
  newInt16Array (elements lhs ++ elements rhs).

(** [a.subarray(begin, end)], both clamped to the view's length. *)
Definition subarray (a : Int16Array) (begin end_ : nat) : Int16Array :=
  let b := Nat.min begin (length a) in
  let e := Nat.min end_ (length a) in
  {| buffer := buffer a; byteOffset := byteOffset a + b; length := e - b |}.

(** [a.subarray(begin)]: to the end of the view. *)
Definition subarrayFrom (a : Int16Array) (begin : nat) : Int16Array :=
  subarray a begin (length a).

(** The two bytes of a 16-bit sample, low byte first. *)
Definition bytesOfSample (s : Z) : list Z :=
  [Z.land s 255; Z.land (Z.shiftr s 8) 255].

(** [new Uint8Array(arrayBuffer)]: every byte of the buffer. *)
Definition newUint8Array (arrayBuffer : list Z) : list Z :=
  flat_map bytesOfSample arrayBuffer.

(** The fields of [Microphone] that the re-chunker and the transcriber
    use; [audioContext] holds the context's sample rate, [None] is
    [null]. *)
Record t := {
  audioBufferQueue : Int16Array;
  audioContext : option Z;
  onDisconnectCallback : bool
}.

Definition initial : t :=
  {| audioBufferQueue := newInt16Array [];
     audioContext := None;
     onDisconnectCallback := false |}.

(** What [startRecording] leaves once the device is acquired. *)
Definition startRecording (m : t) : t :=
  {| audioBufferQueue := audioBufferQueue m;
     audioContext := Some SAMPLE_RATE;
     onDisconnectCallback := true |}.

(** [stopRecording]. *)
Definition stopRecording (m : t) : t :=
  {| audioBufferQueue := newInt16Array [];
     audioContext := None;
     onDisconnectCallback := false |}.

(** [audioWorkletNode.port.onmessage]: the microphone afterwards and the
    frame handed to [onAudioCallback], if any.  On integers,
    [(length / sampleRate) * 1000 >= 100] is
    [100 * sampleRate <= length * 1000], and [Math.floor(sampleRate * 0.1)]
    is [sampleRate / 10]. *)
Definition onmessage (audio_data : list Z) (m : t) : t * option (list Z) :=
  match audioContext m with
  | None => (m, None)
  | Some sampleRate =>
      let currentBuffer := newInt16Array audio_data in
      let queue := mergeBuffers (audioBufferQueue m) currentBuffer in
      if (100 * sampleRate <=? Z.of_nat (length queue) * 1000)%Z then
        let totalSamples := Z.to_nat (sampleRate / 10) in
        let finalBuffer := newUint8Array (buffer (subarray queue 0 totalSamples)) in
        ({| audioBufferQueue := subarrayFrom queue totalSamples;
            audioContext := audioContext m;
            onDisconnectCallback := onDisconnectCallback m |},
         Some finalBuffer)
      else
        ({| audioBufferQueue := queue;
            audioContext := audioContext m;
            onDisconnectCallback := onDisconnectCallback m |},
         None)
  end.

(** A run of worklet messages: the microphone afterwards and the frames
    handed out, in order. *)
Fixpoint feed (callbacks : list (list Z)) (m : t) : t * list (list Z) :=
  match callbacks with
  | [] => (m, [])
  | audio_data :: rest =>
      let '(m1, frame) := onmessage audio_data m in
      let '(m2, frames) := feed rest m1 in
      (m2, match frame with Some f => f :: frames | None => frames end)
  end.

End Microphone.

(* --------------------------------------------------------------------- *)
(** ** The rewrite request of AssemblyAITranscriber.ts *)
(* --------------------------------------------------------------------- *)

Module Rewrite.

(** [DictaphoneSettings] of main.ts. *)
Record DictaphoneSettings := {
  assemblyApiKey : string;
  postProcess : bool;
  postProcessPrompt : string;
  finalModel : string
}.

(** The body of the request sent to the task endpoint;
    [temperature] is always 0. *)
Record Request := {
  authorization : string;
  final_model : string;
  prompt : string;
  input_text : string
}.

(** What comes back from [request] and [JSON.parse]: the request is
    rejected, the body does not parse, or it parses and its [response]
    field holds a string or is missing. *)
Inductive Reply :=
| RequestRejected
| Unparseable
| Parsed (response : option string).

(** A string is truthy unless it is empty. *)
Definition truthy (s : string) : bool :=
  match s with EmptyString => false | _ => true end.

(** [postProcessTranscript] up to its [await]: the request it issues, or
    [None] when it returns [text] at once. *)
Definition requestFor (settings : DictaphoneSettings) (apiKey text : string)
  : option Request :=
  if negb (postProcess settings) || negb (truthy (postProcessPrompt settings))
  then None
  else Some {| authorization := apiKey;
               final_model := finalModel settings;
               prompt := postProcessPrompt settings;
               input_text := text |}.

(** [postProcessTranscript] after its [await], inside the [try]:
    [Some] is the value returned, [None] is a throw. *)
Definition parseReply (reply : Reply) : option string :=
  match reply with
  | RequestRejected => None
  | Unparseable => None
  | Parsed None => None
  | Parsed (Some response) => if truthy response then Some response else None
  end.

(** The value [postProcessTranscript] resolves to: the [catch] returns
    the original text. *)
Definition settle (text : string) (reply : Reply) : string :=
  match parseReply reply with
  | Some response => response
  | None => text
  end.

(** [postProcessTranscript] against a network that answers a request with
    [network]: the text it resolves to and the requests it issued. *)
Definition postProcessTranscript (settings : DictaphoneSettings)
    (apiKey : string) (network : Request -> Reply) (text : string)
  : string * list Request :=
  match requestFor settings apiKey text with
  | None => (text, [])
  | Some r => (settle text (network r), [r])
  end.

End Rewrite.

(* --------------------------------------------------------------------- *)
(** ** The host editor and editorPlugin.ts *)
(* --------------------------------------------------------------------- *)

Import Text.
Import Rewrite.

(** [EditorPosition] of the host. *)
Record EditorPosition := { line : Z; ch : Z }.

(** The argument of [getCursor]: ['from'] or ['to']. *)
Inductive CursorSide := SideFrom | SideTo.

(** The three state effects of editorPlugin.ts. *)
Inductive StateEffect := transcriptionStart | postprocessStart | transcriptionEnd.

(** [DictationState] of editorPlugin.ts. *)
Inductive DictationState := Inactive | Recording | Processing.

(** [dictationStateField.update]: the first effect of the transaction
    decides. *)
Definition dictationStateField_update (value : DictationState)
    (effects : list StateEffect) : DictationState :=
  match effects with
  | [] => value
  | transcriptionStart :: _ => Recording
  | postprocessStart :: _ => Processing
  | transcriptionEnd :: _ => Inactive
  end.

(** The host editor as the transcriber uses it.  [getLine] is [None] where
    the host throws (no such line); [isConnected] is
    [cm.dom.isConnected]; [cmDispatch] is [cm.dispatch({effects})]. *)
Class EditorHost (E : Type) := {
  getCursor : CursorSide -> E -> EditorPosition;
  replaceRange : string -> EditorPosition -> EditorPosition -> E -> E;
  setSelection : EditorPosition -> EditorPosition -> E -> E;
  setCursor : EditorPosition -> E -> E;
  getLine : Z -> E -> option string;
  isConnected : E -> bool;
  cmDispatch : StateEffect -> E -> E
}.

(* --------------------------------------------------------------------- *)
(** ** AssemblyAITranscriber *)
(* --------------------------------------------------------------------- *)

(** [WebSocket.readyState]. *)
Inductive ReadyState := CONNECTING | OPEN | CLOSING | CLOSED.

(** [transcribedLines]. *)
Record LineRange := { from : Z; to : Z }.

Definition emptyRange : LineRange := {| from := -1; to := -1 |}.

(** The update of [transcribedLines] that ends both transcript handlers. *)
Definition widen (lines : LineRange) (l : Z) : LineRange :=
  if (from lines =? -1)%Z then {| from := l; to := l |}
  else {| from := Z.min (from lines) l; to := Z.max (to lines) l |}.

(** What the transcriber does to the outside, in the order it does it.
    [EditorReplaceRange] records whether the editor was attached when it
    was written to. *)
Inductive Effect :=
| MicStartRecording
| MicStopRecording
| SocketCreated
| SocketSendAudio (frame : list Z)
| SocketSendText (data : string)
| SocketClose
| CmDispatch (effect : StateEffect)
| EditorReplaceRange (text : string) (start stop : EditorPosition) (attached : bool)
| EditorSetSelection (anchor head : EditorPosition)
| EditorSetCursor (pos : EditorPosition)
| HttpRequest (r : Request)
| ConsoleError
| DisconnectNotification.

(** A call of [runPostProcess] waiting at its [await]: the text it passed
    to [postProcessTranscript] and the request that call issued, if any. *)
Record Suspended := {
  pendingText : string;
  pendingRequest : option Request
}.

(** What is thrown: by [send] on a connecting socket, by [getLine] on a
    missing line, by a call on [null], by a start that fails. *)
Inductive Exn := InvalidStateError | RangeError | TypeError | StartError.

(** How a call ends. *)
Inductive Completion (A : Type) :=
| Normal (a : A)
| Throw (e : Exn).
Arguments Normal {A} a.
Arguments Throw {A} e.

Section Session.

Context {E : Type} `{EditorHost E}.

(** The transcriber's fields, the objects it holds and the effects so
    far.  There is one editor; [activeEditor] tells whether the field holds
    it or [null].  [websocket] is the ready state of the socket the field
    refers to. *)
Record World := {
  settings : DictaphoneSettings;
  apiKey : string;
  microphone : Microphone.t;
  websocket : option ReadyState;
  transcribedLines : LineRange;
  activeEditor : bool;
  isTranscribing : bool;
  suspended : list Suspended;
  editor : E;
  effects : list Effect
}.

(** The assignments to the fields. *)
Definition setMicrophone (m : Microphone.t) (w : World) : World :=
  {| settings := settings w; apiKey := apiKey w; microphone := m;
     websocket := websocket w; transcribedLines := transcribedLines w;
     activeEditor := activeEditor w; isTranscribing := isTranscribing w;
     suspended := suspended w; editor := editor w; effects := effects w |}.

Definition setWebsocket (s : option ReadyState) (w : World) : World :=
  {| settings := settings w; apiKey := apiKey w; microphone := microphone w;
     websocket := s; transcribedLines := transcribedLines w;
     activeEditor := activeEditor w; isTranscribing := isTranscribing w;
     suspended := suspended w; editor := editor w; effects := effects w |}.

Definition setTranscribedLines (r : LineRange) (w : World) : World :=
  {| settings := settings w; apiKey := apiKey w; microphone := microphone w;
     websocket := websocket w; transcribedLines := r;
     activeEditor := activeEditor w; isTranscribing := isTranscribing w;
     suspended := suspended w; editor := editor w; effects := effects w |}.

Definition setActiveEditor (b : bool) (w : World) : World :=
  {| settings := settings w; apiKey := apiKey w; microphone := microphone w;
     websocket := websocket w; transcribedLines := transcribedLines w;
     activeEditor := b; isTranscribing := isTranscribing w;
     suspended := suspended w; editor := editor w; effects := effects w |}.

Definition setIsTranscribing (b : bool) (w : World) : World :=
  {| settings := settings w; apiKey := apiKey w; microphone := microphone w;
     websocket := websocket w; transcribedLines := transcribedLines w;
     activeEditor := activeEditor w; isTranscribing := b;
     suspended := suspended w; editor := editor w; effects := effects w |}.

Definition setSuspended (l : list Suspended) (w : World) : World :=
  {| settings := settings w; apiKey := apiKey w; microphone := microphone w;
     websocket := websocket w; transcribedLines := transcribedLines w;
     activeEditor := activeEditor w; isTranscribing := isTranscribing w;
     suspended := l; editor := editor w; effects := effects w |}.

Definition setEditor (e : E) (w : World) : World :=
  {| settings := settings w; apiKey := apiKey w; microphone := microphone w;
     websocket := websocket w; transcribedLines := transcribedLines w;
     activeEditor := activeEditor w; isTranscribing := isTranscribing w;
     suspended := suspended w; editor := e; effects := effects w |}.

Definition setEffects (l : list Effect) (w : World) : World :=
  {| settings := settings w; apiKey := apiKey w; microphone := microphone w;
     websocket := websocket w; transcribedLines := transcribedLines w;
     activeEditor := activeEditor w; isTranscribing := isTranscribing w;
     suspended := suspended w; editor := editor w; effects := l |}.

(** *** The monad of handlers *)

(** A handler: from the world before to how it completes and the world
    after. *)
Definition JS (A : Type) : Type := World -> Completion A * World.

Definition ret {A} (a : A) : JS A := fun w => (Normal a, w).

Definition bind {A B} (c : JS A) (k : A -> JS B) : JS B :=
  fun w =>
    match c w with
    | (Normal a, w1) => k a w1
    | (Throw e, w1) => (Throw e, w1)
    end.

Definition throw {A} (e : Exn) : JS A := fun w => (Throw e, w).

Definition gets {A} (f : World -> A) : JS A := fun w => (Normal (f w), w).

Definition modify (f : World -> World) : JS unit := fun w => (Normal tt, f w).

(** [try { body } catch { handler }]. *)
Definition tryCatch {A} (body : JS A) (handler : Exn -> JS A) : JS A :=
  fun w =>
    match body w with
    | (Normal a, w1) => (Normal a, w1)
    | (Throw e, w1) => handler e w1
    end.

(** The call of an [async] function, or of an event handler by the event
    loop: a throw rejects the promise (or is reported) and does not reach
    the caller. *)
Definition async (body : JS unit) : JS unit :=
  fun w => (Normal tt, snd (body w)).

End Session.

Arguments World E : clear implicits.
Arguments JS E A : clear implicits.

Declare Scope js_scope.
Delimit Scope js_scope with js.
Notation "x <- c ;; k" := (bind c (fun x => k))
  (at level 61, c at next level, right associativity) : js_scope.
Notation "c ;; k" := (bind c (fun _ => k))
  (at level 61, right associativity) : js_scope.

Section Handlers.

Context {E : Type} `{EditorHost E}.

Local Open Scope js_scope.
Local Open Scope Z_scope.

(** One more effect, after those so far. *)
Definition emit (e : Effect) : JS E unit :=
  modify (fun w => setEffects (effects w ++ [e]) w).

(** *** The objects the transcriber calls *)

(** [websocket.send(data)]: throws while the socket is connecting, writes
    when it is open, and discards the data when it is closing or closed. *)
Definition socketSend (data : Effect) : JS E unit :=
  fun w =>
    match websocket w with
    | None => throw TypeError w
    | Some CONNECTING => throw InvalidStateError w
    | Some OPEN => emit data w
    | Some CLOSING => ret tt w
    | Some CLOSED => ret tt w
    end.

(** [websocket.close()]. *)
Definition socketClose : JS E unit :=
  fun w =>
    match websocket w with
    | None => throw TypeError w
    | Some CONNECTING => (modify (setWebsocket (Some CLOSING)) ;; emit SocketClose) w
    | Some OPEN => (modify (setWebsocket (Some CLOSING)) ;; emit SocketClose) w
    | Some CLOSING => ret tt w
    | Some CLOSED => ret tt w
    end.

(** [this.microphone.stopRecording()]. *)
Definition microphoneStopRecording : JS E unit :=
  modify (fun w => setMicrophone (Microphone.stopRecording (microphone w)) w) ;;
  emit MicStopRecording.

(** [await this.microphone.startRecording(...)]; it rejects when the
    device cannot be acquired. *)
Definition microphoneStartRecording (deviceAcquired : bool) : JS E unit :=
  if deviceAcquired then
    modify (fun w => setMicrophone (Microphone.startRecording (microphone w)) w) ;;
    emit MicStartRecording
  else throw StartError.

(** The calls on the editor: [getCursor], [getLine], [replaceRange],
    [setSelection] and [setCursor]. *)
Definition editorGetCursor (side : CursorSide) : JS E EditorPosition :=
  gets (fun w => getCursor side (editor w)).

Definition editorGetLine (n : Z) : JS E string :=
  fun w =>
    match getLine n (editor w) with
    | Some l => ret l w
    | None => throw RangeError w
    end.

Definition editorReplaceRange (text : string) (start stop : EditorPosition)
  : JS E unit :=
  attached <- gets (fun w => isConnected (editor w)) ;;
  modify (fun w => setEditor (replaceRange text start stop (editor w)) w) ;;
  emit (EditorReplaceRange text start stop attached).

Definition editorSetSelection (anchor head : EditorPosition) : JS E unit :=
  modify (fun w => setEditor (setSelection anchor head (editor w)) w) ;;
  emit (EditorSetSelection anchor head).

Definition editorSetCursor (pos : EditorPosition) : JS E unit :=
  modify (fun w => setEditor (setCursor pos (editor w)) w) ;;
  emit (EditorSetCursor pos).

(** *** The methods of the class *)

(** [dispatchStateEffect]. *)
Definition dispatchStateEffect (effect : StateEffect) : JS E unit :=
  held <- gets activeEditor ;;
  if negb held then ret tt
  else
    modify (fun w => setEditor (cmDispatch effect (editor w)) w) ;;
    emit (CmDispatch effect).

(** The control message ['{"terminate_session":true}']. *)
Definition terminateSession : string :=
  "{" ++ String DQUOTE "terminate_session" ++ String DQUOTE ":true}".

(** [stopTranscription], with the call of [runPostProcess] left open. *)
Definition stopTranscriptionWith (runPostProcess : JS E unit) (immediate : bool)
  : JS E unit :=
  transcribing <- gets isTranscribing ;;
  if negb transcribing then ret tt
  else
    (if negb immediate then runPostProcess
     else modify (setActiveEditor false)) ;;
    modify (setIsTranscribing false) ;;
    microphoneStopRecording ;;
    ws <- gets websocket ;;
    match ws with
    | Some CONNECTING | Some OPEN =>
        socketSend (SocketSendText terminateSession) ;;
        socketClose ;;
        modify (setWebsocket None)
    | _ => ret tt
    end.

(** [checkEditor]; its call [stopTranscription(true)] never reaches
    [runPostProcess]. *)
Definition checkEditor : JS E bool :=
  held <- gets activeEditor ;;
  attached <- gets (fun w => isConnected (editor w)) ;;
  if negb held || negb attached then
    stopTranscriptionWith (ret tt) true ;;
    ret false
  else ret true.

(** The [for] loop of [runPostProcess]: the lines [i], [i+1], ... *)
Fixpoint collectLines (i : Z) (count : nat) : JS E (list string) :=
  match count with
  | O => ret []
  | S count' =>
      l <- editorGetLine i ;;
      ls <- collectLines (i + 1) count' ;;
      ret (l :: ls)
  end.

(** The end of [runPostProcess], after its [try]. *)
Definition finishPostProcess : JS E unit :=
  modify (setTranscribedLines emptyRange) ;;
  dispatchStateEffect transcriptionEnd ;;
  modify (setActiveEditor false).

(** The call [this.postProcessTranscript(text)] up to the [await] in
    [runPostProcess]: the request goes out, if there is one, and the
    caller is suspended. *)
Definition callPostProcessTranscript (text : string) : JS E unit :=
  s <- gets settings ;;
  key <- gets apiKey ;;
  let r := requestFor s key text in
  match r with
  | Some rq => emit (HttpRequest rq)
  | None => ret tt
  end ;;
  modify (fun w =>
            setSuspended
              (suspended w ++ [{| pendingText := text; pendingRequest := r |}]) w).

(** [runPostProcess] up to its [await]. *)
Definition runPostProcess : JS E unit :=
  async (
    ok <- checkEditor ;;
    lines <- gets transcribedLines ;;
    if negb ok || (from lines =? -1) then
      modify (setTranscribedLines emptyRange) ;;
      dispatchStateEffect transcriptionEnd
    else
      waiting <- tryCatch
        (dispatchStateEffect postprocessStart ;;
         ls <- collectLines (from lines) (Z.to_nat (to lines - from lines + 1)) ;;
         callPostProcessTranscript (String.concat (String LF EmptyString) ls) ;;
         ret true)
        (fun _ => emit ConsoleError ;; ret false) ;;
      if waiting : bool then ret tt else finishPostProcess).

(** [runPostProcess] from its [await] on, once [postProcessTranscript]
    has settled. *)
Definition resumePostProcess (p : Suspended) (reply : Reply) : JS E unit :=
  async (
    text <- match pendingRequest p with
            | None => ret (pendingText p)
            | Some _ =>
                match parseReply reply with
                | Some response => ret response
                | None => emit ConsoleError ;; ret (pendingText p)
                end
            end ;;
    tryCatch
      (lines <- gets transcribedLines ;;
       let start := {| line := from lines; ch := 0 |} in
       l <- editorGetLine (to lines) ;;
       let stop := {| line := to lines; ch := Z.of_nat (String.length l) |} in
       editorReplaceRange text start stop)
      (fun _ => emit ConsoleError) ;;
    finishPostProcess).

(** [stopTranscription]. *)
Definition stopTranscription (immediate : bool) : JS E unit :=
  stopTranscriptionWith runPostProcess immediate.

(** [handlePartialTranscript]. *)
Definition handlePartialTranscript (text : string) : JS E unit :=
  ok <- checkEditor ;;
  if negb ok then ret tt
  else
    start <- editorGetCursor SideFrom ;;
    stop <- editorGetCursor SideTo ;;
    editorReplaceRange text start stop ;;
    editorSetSelection start
      {| line := line start; ch := ch start + Z.of_nat (String.length text) |} ;;
    modify (fun w => setTranscribedLines (widen (transcribedLines w) (line start)) w).

(** The text [handleFinalTranscript] inserts. *)
Definition finalInsert (text : string) : string :=
  let insert := applyTransforms text in
  if endsWithLF insert then insert else insert ++ " ".

(** [handleFinalTranscript]. *)
Definition handleFinalTranscript (text : string) : JS E unit :=
  ok <- checkEditor ;;
  if negb ok then ret tt
  else
    start <- editorGetCursor SideFrom ;;
    stop <- editorGetCursor SideTo ;;
    let insert := finalInsert text in
    let end_ := {| line := line start;
                   ch := ch start + Z.of_nat (String.length insert) |} in
    editorReplaceRange insert start stop ;;
    editorSetCursor end_ ;;
    start' <- editorGetCursor SideFrom ;;
    modify (fun w => setTranscribedLines (widen (transcribedLines w) (line start')) w).

(** [websocket.onmessage], on a message that parses to
    [{message_type, text}]. *)
Definition onmessage (message_type text : string) : JS E unit :=
  tryCatch
    (if truthy text then
       if String.eqb message_type "PartialTranscript" then handlePartialTranscript text
       else if String.eqb message_type "FinalTranscript" then handleFinalTranscript text
       else ret tt
     else ret tt)
    (fun _ => emit ConsoleError).

(** The audio callback passed to [microphone.startRecording]. *)
Definition onAudio (buffer : list Z) : JS E unit :=
  transcribing <- gets isTranscribing ;;
  ws <- gets websocket ;;
  match transcribing, ws with
  | true, Some OPEN => socketSend (SocketSendAudio buffer)
  | _, _ => ret tt
  end.

(** The disconnect callback passed to [microphone.startRecording]. *)
Definition onDisconnect : JS E unit :=
  emit DisconnectNotification ;;
  stopTranscription false.

(** [Microphone.handleDeviceChange]: [stopRecording] runs first and clears
    the callback that the next statement would call. *)
Definition handleDeviceChange : JS E unit :=
  microphoneStopRecording ;;
  registered <- gets (fun w => Microphone.onDisconnectCallback (microphone w)) ;;
  if registered : bool then onDisconnect else ret tt.

(** [startTranscription], its two [await]s resolved at once: [token] is
    what [getStreamToken] resolves to ([None]: it rejects) and
    [deviceAcquired] tells whether [microphone.startRecording] resolves. *)
Definition startTranscription (token : option string) (deviceAcquired : bool)
  : JS E unit :=
  async (
    transcribing <- gets isTranscribing ;;
    if transcribing : bool then ret tt
    else
      tryCatch
        (match token with
         | None => emit ConsoleError ;; throw StartError
         | Some _ => ret tt
         end ;;
         modify (setWebsocket (Some CONNECTING)) ;;
         emit SocketCreated ;;
         modify (setIsTranscribing true) ;;
         modify (setActiveEditor true) ;;
         dispatchStateEffect transcriptionStart ;;
         microphoneStartRecording deviceAcquired)
        (fun _ => emit ConsoleError ;; stopTranscription false)).

(** *** The event loop *)

(** What can happen to the session: calls of the plugin's commands,
    events of the socket, the worklet and the media devices, a change of
    the editor by its host (the user edits, moves the cursor, closes the
    document), and the settling of a rewrite request. *)
Inductive Event :=
| StartTranscription (token : option string) (deviceAcquired : bool)
| StopTranscription (immediate : bool)
| SocketOpened
| SocketMessage (message_type text : string)
| SocketError
| SocketClosed
| WorkletMessage (audio_data : list Z)
| DeviceChange
| HostUpdate (e : E)
| RewriteSettled (k : nat) (reply : Reply).

(** The list without its [k]-th element. *)
Fixpoint removeNth {A} (k : nat) (l : list A) : list A :=
  match k, l with
  | _, [] => []
  | O, _ :: l' => l'
  | S k', a :: l' => a :: removeNth k' l'
  end.

(** The handler the event loop runs for an event. *)
Definition handle (ev : Event) : JS E unit :=
  match ev with
  | StartTranscription token deviceAcquired => startTranscription token deviceAcquired
  | StopTranscription immediate => stopTranscription immediate
  | SocketOpened =>
      modify (fun w =>
                match websocket w with
                | Some CONNECTING => setWebsocket (Some OPEN) w
                | _ => w
                end)
  | SocketMessage message_type text => onmessage message_type text
  | SocketError => emit ConsoleError ;; stopTranscription false
  | SocketClosed =>
      modify (fun w =>
                match websocket w with
                | Some _ => setWebsocket (Some CLOSED) w
                | None => w
                end) ;;
      stopTranscription false
  | WorkletMessage audio_data =>
      m <- gets microphone ;;
      let '(m', frame) := Microphone.onmessage audio_data m in
      modify (setMicrophone m') ;;
      match frame with
      | Some finalBuffer => onAudio finalBuffer
      | None => ret tt
      end
  | DeviceChange =>
      (* the listener is registered from startRecording to stopRecording *)
      m <- gets microphone ;;
      match Microphone.audioContext m with
      | Some _ => handleDeviceChange
      | None => ret tt
      end
  | HostUpdate e => modify (setEditor e)
  | RewriteSettled k reply =>
      waiting <- gets suspended ;;
      match nth_error waiting k with
      | Some p =>
          modify (setSuspended (removeNth k waiting)) ;;
          resumePostProcess p reply
      | None => ret tt
      end
  end.

(** The microtasks run once the handler has returned: every call of
    [runPostProcess] whose [postProcessTranscript] returned without a
    request resumes, in order. *)
Fixpoint resumeAll (ps : list Suspended) : JS E unit :=
  match ps with
  | [] => ret tt
  | p :: ps' => resumePostProcess p (Parsed None) ;; resumeAll ps'
  end.

(** Whether a suspended call waits for the network. *)
Definition hasRequest (p : Suspended) : bool :=
  match pendingRequest p with Some _ => true | None => false end.

(** The calls that wait for the network stay suspended; the others
    resume. *)
Definition drainMicrotasks : JS E unit :=
  waiting <- gets suspended ;;
  modify (setSuspended (filter hasRequest waiting)) ;;
  resumeAll (filter (fun p => negb (hasRequest p)) waiting).

(** One turn of the event loop. *)
Definition step (ev : Event) (w : World E) : World E :=
  snd (drainMicrotasks (snd (handle ev w))).

(** The events of a list, one turn each. *)
Definition run (evs : list Event) (w : World E) : World E :=
  fold_left (fun w ev => step ev w) evs w.

(** A transcriber just constructed, with its editor. *)
Definition initialWorld (s : DictaphoneSettings) (e : E) : World E :=
  {| settings := s; apiKey := assemblyApiKey s;
     microphone := Microphone.initial; websocket := None;
     transcribedLines := emptyRange; activeEditor := false;
     isTranscribing := false; suspended := []; editor := e; effects := [] |}.

End Handlers.

Arguments Event E : clear implicits.

(* --------------------------------------------------------------------- *)
(** ** A plain host editor, to run the handlers on *)
(* --------------------------------------------------------------------- *)

Module Plain.

Local Open Scope Z_scope.

(** A document as its lines, a selection, whether the view is attached and
    the dictation state kept by the editor plugin. *)
Record Editor := {
  doc : list string;
  selAnchor : EditorPosition;
  selHead : EditorPosition;
  connected : bool;
  dictation : DictationState
}.

Definition posLeb (a b : EditorPosition) : bool :=
  (line a <? line b) || ((line a =? line b) && (ch a <=? ch b)).

Definition clamp (lo hi x : Z) : Z := Z.max lo (Z.min hi x).

Definition lineAt (d : list string) (n : Z) : string :=
  nth (Z.to_nat n) d EmptyString.

(** A position brought back into the document. *)
Definition clip (d : list string) (p : EditorPosition) : EditorPosition :=
  let l := clamp 0 (Z.of_nat (List.length d) - 1) (line p) in
  {| line := l;
     ch := clamp 0 (Z.of_nat (String.length (lineAt d l))) (ch p) |}.

Fixpoint splitLines (s : string) : list string :=
  match s with
  | EmptyString => [EmptyString]
  | String c rest =>
      if Ascii.eqb c LF then EmptyString :: splitLines rest
      else match splitLines rest with
           | l :: ls => String c l :: ls
           | [] => [String c EmptyString]
           end
  end.

Definition plainReplaceRange (text : string) (start stop : EditorPosition)
    (e : Editor) : Editor :=
  let d := doc e in
  let s := clip d start in
  let t := clip d stop in
  let before := firstn (Z.to_nat (line s)) d in
  let after := skipn (S (Z.to_nat (line t))) d in
  let first := substring 0 (Z.to_nat (ch s)) (lineAt d (line s)) in
  let last := lineAt d (line t) in
  let last' := substring (Z.to_nat (ch t)) (String.length last - Z.to_nat (ch t)) last in
  {| doc := before ++ splitLines (first ++ text ++ last') ++ after;
     selAnchor := selAnchor e; selHead := selHead e;
     connected := connected e; dictation := dictation e |}.

Definition plainSetSelection (anchor head : EditorPosition) (e : Editor) : Editor :=
  {| doc := doc e;
     selAnchor := clip (doc e) anchor; selHead := clip (doc e) head;
     connected := connected e; dictation := dictation e |}.

Definition plainDispatch (effect : StateEffect) (e : Editor) : Editor :=
  {| doc := doc e; selAnchor := selAnchor e; selHead := selHead e;
     connected := connected e;
     dictation := dictationStateField_update (dictation e) [effect] |}.

#[global] Instance host : EditorHost Editor := {
  getCursor side e :=
    match side with
    | SideFrom => if posLeb (selAnchor e) (selHead e) then selAnchor e else selHead e
    | SideTo => if posLeb (selAnchor e) (selHead e) then selHead e else selAnchor e
    end;
  replaceRange := plainReplaceRange;
  setSelection := plainSetSelection;
  setCursor pos := plainSetSelection pos pos;
  getLine n e := if n <? 0 then None else nth_error (doc e) (Z.to_nat n);
  isConnected := connected;
  cmDispatch := plainDispatch
}.

(** An attached editor with the cursor at [pos]. *)
Definition at_ (d : list string) (pos : EditorPosition) : Editor :=
  {| doc := d; selAnchor := pos; selHead := pos;
     connected := true; dictation := Inactive |}.

(** The same editor once its view has left the page. *)
Definition detach (e : Editor) : Editor :=
  {| doc := doc e; selAnchor := selAnchor e; selHead := selHead e;
     connected := false; dictation := dictation e |}.

Definition defaultSettings : DictaphoneSettings :=
  {| assemblyApiKey := "key"; postProcess := true;
     postProcessPrompt := "Correct grammar."; finalModel := "model" |}.

End Plain.


(* --------------------------------------------------------------------- *)
(** ** Vocabulary of the properties *)
(* --------------------------------------------------------------------- *)

Module TextSpec.

(** Cutting a text after every sentence terminal, by recursion on the
    text: the pieces that end in a terminal and what remains after the
    last one.  [cur] is the piece being read. *)
Fixpoint splitTerminated (cur text : string) : list string * string :=
  match text with
  | EmptyString => ([], cur)
  | String c rest =>
      if Sentence_Terminal c then
        let '(pieces, remainder) := splitTerminated EmptyString rest in
        ((cur ++ String c EmptyString) :: pieces, remainder)
      else splitTerminated (cur ++ String c EmptyString) rest
  end.

(** No character of [s] is a sentence terminal. *)
Fixpoint noTerminal (s : string) : bool :=
  match s with
  | EmptyString => true
  | String c rest => negb (Sentence_Terminal c) && noTerminal rest
  end.

(** A piece cut after a terminal: no terminal but its last character. *)
Definition terminated (p : string) : Prop :=
  exists body c, p = body ++ String c EmptyString /\
                 noTerminal body = true /\ Sentence_Terminal c = true.

(** A sentence holds no terminal, or exactly one, as its last character. *)
Definition sentenceShape (s : string) : Prop :=
  noTerminal s = true \/ terminated s.

(** A text with its letters 'A'..'Z' in lower case. *)
Fixpoint lower (s : string) : string :=
  match s with
  | EmptyString => EmptyString
  | String c rest => String (toLowerCase c) (lower rest)
  end.

(** The voice command: "new line" or "newline" in any case, followed by
    one sentence terminal and nothing else. *)
Definition isCommandSentence (s : string) : Prop :=
  exists word c, s = word ++ String c EmptyString /\
                 Sentence_Terminal c = true /\
                 (lower word = "new line" \/ lower word = "newline").

(** What the transform does to one sentence. *)
Definition replaceCommand (sentence : string) : string :=
  if isNewLineCommand sentence then paragraphBreak else sentence.

End TextSpec.

Module RewriteSpec.

(** The three failures of a rewrite: the request is rejected, the reply
    does not parse, the reply has no [response] field. *)
Definition failed (reply : Reply) : Prop :=
  reply = RequestRejected \/ reply = Unparseable \/ reply = Parsed None.

End RewriteSpec.

Module MicrophoneSpec.

(** The [k]-th block of 128 samples from the worklet; the samples are
    numbered so that every one can be told apart. *)
Definition renderQuantum (k : nat) : list Z :=
  map Z.of_nat (seq (128 * k) 128).

(** A microphone that is recording, its queue empty. *)
Definition recording : Microphone.t :=
  Microphone.startRecording Microphone.initial.

(** The number of samples a frame of bytes holds. *)
Definition samplesIn (frame : list Z) : nat := Nat.div (List.length frame) 2.

End MicrophoneSpec.

Module SessionSpec.

Local Open Scope Z_scope.

(** Whether a text holds a line feed. *)
Fixpoint containsLF (s : string) : bool :=
  match s with
  | EmptyString => false
  | String c rest => Ascii.eqb c LF || containsLF rest
  end.

(** The number of line feeds in a text and the length of what follows the
    last one. *)
Fixpoint countLF (s : string) : Z :=
  match s with
  | EmptyString => 0
  | String c rest => (if Ascii.eqb c LF then 1 else 0) + countLF rest
  end.

Fixpoint afterLastLF (s : string) : string :=
  match s with
  | EmptyString => EmptyString
  | String c rest =>
      if containsLF s then afterLastLF rest else s
  end.

(** Where a text inserted at [start] ends in the buffer: on the line of
    [start] when it holds no line feed, otherwise as many lines further
    down as it holds line feeds, after what follows the last of them. *)
Definition endOfInsert (start : EditorPosition) (insert : string) : EditorPosition :=
  if containsLF insert then
    {| line := line start + countLF insert;
       ch := Z.of_nat (String.length (afterLastLF insert)) |}
  else
    {| line := line start; ch := ch start + Z.of_nat (String.length insert) |}.

(** The session is recording on an editor that passes the liveness
    check. *)
Definition live {E} `{EditorHost E} (w : World E) : Prop :=
  activeEditor w = true /\ isConnected (editor w) = true.

(** The effects of the teardown on an open socket. *)
Definition teardown : list Effect :=
  [MicStopRecording; SocketSendText terminateSession; SocketClose].

(** The effect of issuing a request, if there is one. *)
Definition requestEffect (r : option Request) : list Effect :=
  match r with
  | Some rq => [HttpRequest rq]
  | None => []
  end.

(** How many times the audio capture was stopped. *)
Definition captureStops (log : list Effect) : nat :=
  List.length
    (filter (fun e => match e with MicStopRecording => true | _ => false end) log).

(** Whether a write to the editor went to a detached view. *)
Definition wroteDetached (log : list Effect) : bool :=
  existsb (fun e => match e with
                    | EditorReplaceRange _ _ _ attached => negb attached
                    | _ => false
                    end) log.

Section Dictation.

Context {E : Type} `{EditorHost E}.

(** The lines [i], [i+1], ... of an editor, [count] of them; [None] when
    one of them is missing. *)
Fixpoint linesOf (e : E) (i : Z) (count : nat) : option (list string) :=
  match count with
  | O => Some []
  | S count' =>
      match getLine i e, linesOf e (i + 1) count' with
      | Some l, Some ls => Some (l :: ls)
      | _, _ => None
      end
  end.

(** The text of the transcribed lines as [runPostProcess] reads it once
    it has signalled the start of post-processing. *)
Definition transcribedText (w : World E) : option string :=
  let lines := transcribedLines w in
  match linesOf (cmDispatch postprocessStart (editor w)) (from lines)
          (Z.to_nat (to lines - from lines + 1)) with
  | Some ls => Some (String.concat (String LF EmptyString) ls)
  | None => None
  end.

(** The text [runPostProcess] writes back when it resumes. *)
Definition resumedText (p : Suspended) (reply : Reply) : string :=
  match pendingRequest p with
  | None => pendingText p
  | Some _ => settle (pendingText p) reply
  end.

(** The lines reported while a list of events is handled: the line of the
    cursor, as [getCursor('from')] gives it, at every transcript message
    that carries a text. *)
Fixpoint reportedLines (evs : list (Event E)) (w : World E) : list Z :=
  match evs with
  | [] => []
  | ev :: evs' =>
      (match ev with
       | SocketMessage _ text =>
           if truthy text then [line (getCursor SideFrom (editor w))] else []
       | _ => []
       end ++ reportedLines evs' (step ev w))%list
  end.

(** Every transcript message of the list finds the editor live. *)
Fixpoint checksPass (evs : list (Event E)) (w : World E) : Prop :=
  match evs with
  | [] => True
  | ev :: evs' =>
      match ev with
      | SocketMessage _ text => truthy text = true -> live w
      | _ => True
      end /\ checksPass evs' (step ev w)
  end.

(** Partial transcripts, and the host moving the cursor or editing in
    between. *)
Definition partialOrHost (ev : Event E) : Prop :=
  match ev with
  | SocketMessage message_type _ => message_type = "PartialTranscript"
  | HostUpdate _ => True
  | _ => False
  end.

End Dictation.

(** [r] is the empty range and no line was reported, or [r] runs from the
    least to the greatest of the reported lines. *)
Definition spans (r : LineRange) (reported : list Z) : Prop :=
  match reported with
  | [] => r = emptyRange
  | _ => In (from r) reported /\ In (to r) reported /\
         forall l, In l reported -> from r <= l <= to r
  end.

(** The range of transcribed lines is in order. *)
Definition ordered {E} (w : World E) : Prop :=
  (from (transcribedLines w) <= to (transcribedLines w))%Z.

(** A computation keeps a property of the world, however it completes. *)
Definition keeps {E A} (P : World E -> Prop) (c : JS E A) : Prop :=
  forall w, P w -> P (snd (c w)).

End SessionSpec.

(** Runs on the plain editor. *)
Module Scenario.

Import Plain.
Local Open Scope Z_scope.

Definition notes : list string := ["Monday"; "Shopping"; "Calls"; ""].

(** A transcriber just made, the cursor on the last line of the notes. *)
Definition fresh : World Editor :=
  initialWorld defaultSettings (at_ notes {| line := 3; ch := 0 |}).

(** The session started and its socket open. *)
Definition recording : World Editor :=
  run [StartTranscription (Some "token") true; SocketOpened] fresh.

(** A first partial transcript has been written. *)
Definition dictated : World Editor :=
  step (SocketMessage "PartialTranscript" "hello") recording.

(** The document is closed: the editor's view leaves the page. *)
Definition closeDocument (w : World Editor) : World Editor :=
  step (HostUpdate (detach (editor w))) w.

End Scenario.

(* --------------------------------------------------------------------- *)
(** ** More vocabulary: texts, frames and sockets *)
(* --------------------------------------------------------------------- *)

Module TextMoreSpec.

(** [n] spaces. *)
Fixpoint spaces (n : nat) : string :=
  match n with
  | O => EmptyString
  | S n' => String SPACE (spaces n')
  end.

(** Whether a text begins, or ends, with a space. *)
Definition startsWithSpace (s : string) : bool :=
  match s with
  | String c _ => Ascii.eqb c SPACE
  | EmptyString => false
  end.

Fixpoint endsWithSpace (s : string) : bool :=
  match s with
  | EmptyString => false
  | String c EmptyString => Ascii.eqb c SPACE
  | String _ rest => endsWithSpace rest
  end.

(** A text without its spaces. *)
Fixpoint stripSpaces (s : string) : string :=
  match s with
  | EmptyString => EmptyString
  | String c rest =>
      if Ascii.eqb c SPACE then stripSpaces rest else String c (stripSpaces rest)
  end.

(** The number of sentence terminals in a text. *)
Fixpoint countTerminals (s : string) : nat :=
  match s with
  | EmptyString => O
  | String c rest =>
      if Sentence_Terminal c then S (countTerminals rest) else countTerminals rest
  end.

(** The texts of a list, end to end. *)
Fixpoint flat (l : list string) : string :=
  match l with
  | [] => EmptyString
  | s :: l' => s ++ flat l'
  end.

End TextMoreSpec.

Module MicrophoneMoreSpec.

(** The samples of a list of blocks, end to end. *)
Definition stream (blocks : list (list Z)) : list Z := List.concat blocks.

(** The number of samples of a frame: [sampleRate / 10] at 16 kHz. *)
Definition frameSamples : nat := Z.to_nat (Microphone.SAMPLE_RATE / 10).

End MicrophoneMoreSpec.

Module SessionMoreSpec.

(** Whether an effect is a write to the editor or to its state. *)
Definition touchesEditor (e : Effect) : bool :=
  match e with
  | CmDispatch _ => true
  | EditorReplaceRange _ _ _ _ => true
  | EditorSetSelection _ _ => true
  | EditorSetCursor _ => true
  | _ => false
  end.

(** Whether an effect is a write to the socket. *)
Definition touchesSocket (e : Effect) : bool :=
  match e with
  | SocketSendAudio _ => true
  | SocketSendText _ => true
  | SocketClose => true
  | _ => false
  end.

(** The socket is in state [ws] and the writes to it are those of
    [log]. *)
Definition socketWith {E : Type} (ws : option ReadyState) (log : list Effect)
    (w : World E) : Prop :=
  websocket w = ws /\ filter touchesSocket (effects w) = log.

End SessionMoreSpec.

Module ScenarioMore.

Import Plain.
Local Open Scope Z_scope.

(** The settings with the rewrite switched off. *)
Definition rewriteOff : DictaphoneSettings :=
  {| assemblyApiKey := "key"; postProcess := false;
     postProcessPrompt := "Correct grammar."; finalModel := "model" |}.

(** A first partial transcript has been written, the rewrite switched
    off. *)
Definition dictatedPlain : World Editor :=
  run [StartTranscription (Some "token") true; SocketOpened;
       SocketMessage "PartialTranscript" "hello"]
    (initialWorld rewriteOff (at_ Scenario.notes {| line := 3; ch := 0 |})).

End ScenarioMore.

(* ===================================================================== *)
(** * Part II: properties *)
(* ===================================================================== *)

(* --------------------------------------------------------------------- *)
(** ** The sentence transform *)
(* --------------------------------------------------------------------- *)

Module TextFacts.

Import TextSpec.

Lemma append_nil_r (s : string) : s ++ EmptyString = s.
Proof. induction s as [|c s IH]; simpl; [reflexivity | now rewrite IH]. Qed.

Lemma append_assoc (a b c : string) : (a ++ b) ++ c = a ++ (b ++ c).
Proof. induction a as [|x a IH]; simpl; [reflexivity | now rewrite IH]. Qed.

Lemma length_append (a b : string) :
  String.length (a ++ b) = String.length a + String.length b.
Proof. induction a as [|x a IH]; simpl; [reflexivity | now rewrite IH]. Qed.

Lemma substring_prefix (b c : string) :
  substring 0 (String.length b) (b ++ c) = b.
Proof.
  induction b as [|x b IH]; simpl.
  - destruct c; reflexivity.
  - now rewrite IH.
Qed.

(** The slice that starts after [a] and is as long as [b]. *)
Lemma substring_middle (a b c : string) :
  substring (String.length a) (String.length b) (a ++ b ++ c) = b.
Proof.
  induction a as [|x a IH]; simpl.
  - apply substring_prefix.
  - exact IH.
Qed.

Lemma slice_middle (a b c : string) :
  slice (a ++ b ++ c) (String.length a) (String.length a + String.length b) = b.
Proof.
  unfold slice.
  replace (String.length a + String.length b - String.length a)
    with (String.length b) by lia.
  apply substring_middle.
Qed.

(** *** The loop over the matches cuts the text after every terminal *)

Lemma sentenceLoop_spec (suf : string) :
  forall text pre cur index,
    text = pre ++ cur ++ suf ->
    index = String.length pre + String.length cur ->
    exists done,
      sentenceLoop text (matchAll_from index suf) (String.length pre)
      = (map trimSpaces (fst (splitTerminated cur suf)), String.length done)
      /\ text = done ++ snd (splitTerminated cur suf).
Proof.
  induction suf as [|c suf IH]; intros text pre cur index Htext Hindex.
  - simpl. exists pre. split; [reflexivity|].
    now rewrite Htext, append_nil_r.
  - simpl. destruct (Sentence_Terminal c) eqn:Hc.
    + destruct (IH text (pre ++ cur ++ String c EmptyString) EmptyString (S index))
        as [done [Hloop Hdone]].
      * rewrite Htext, !append_assoc. reflexivity.
      * rewrite !length_append. simpl. lia.
      * cbn [sentenceLoop].
        replace (index + 1) with (String.length (pre ++ cur ++ String c EmptyString))
          by (rewrite !length_append; simpl; lia).
        rewrite Hloop.
        destruct (splitTerminated EmptyString suf) as [pieces remainder] eqn:Hsplit.
        exists done. split; [|exact Hdone].
        cbn [fst map]. f_equal. f_equal. f_equal.
        rewrite Htext.
        replace (pre ++ cur ++ String c suf)
          with (pre ++ (cur ++ String c EmptyString) ++ suf)
          by (rewrite !append_assoc; reflexivity).
        rewrite (length_append pre).
        apply slice_middle.
    + apply IH.
      * rewrite Htext, !append_assoc. reflexivity.
      * rewrite length_append. simpl. lia.
Qed.

(** [stringToSentences] trims every piece that ends in a terminal and
    keeps what remains after the last one unless it trims to nothing. *)
Lemma stringToSentences_spec (text : string) :
  stringToSentences text =
  (map trimSpaces (fst (splitTerminated EmptyString text))
   ++ match trimSpaces (snd (splitTerminated EmptyString text)) with
      | EmptyString => []
      | last => [last]
      end)%list.
Proof.
  unfold stringToSentences, matchAll.
  destruct (sentenceLoop_spec text text EmptyString EmptyString 0 eq_refl eq_refl)
    as [done [Hloop Hdone]].
  cbn [String.length] in Hloop. rewrite Hloop.
  set (remainder := snd (splitTerminated EmptyString text)) in *.
  assert (Hslice : slice text (String.length done) (String.length text) = remainder).
  { rewrite Hdone at 1 2.
    rewrite length_append.
    rewrite <- (append_nil_r remainder) at 1.
    apply slice_middle. }
  rewrite Hslice.
  destruct (trimSpaces remainder); [now rewrite app_nil_r | reflexivity].
Qed.

(** The pieces and what is left, put end to end, are the text. *)
Lemma splitTerminated_partition (text : string) :
  forall cur,
    String.concat EmptyString (fst (splitTerminated cur text))
    ++ snd (splitTerminated cur text) = cur ++ text.
Proof.
  induction text as [|c text IH]; intros cur; simpl.
  - now rewrite append_nil_r.
  - destruct (Sentence_Terminal c).
    + specialize (IH EmptyString).
      destruct (splitTerminated EmptyString text) as [pieces remainder].
      cbn [fst snd append] in *.
      replace (cur ++ String c text) with ((cur ++ String c EmptyString) ++ text)
        by (rewrite append_assoc; reflexivity).
      rewrite <- IH.
      destruct pieces as [|p pieces]; cbn [String.concat append].
      * reflexivity.
      * now rewrite append_assoc.
    + rewrite IH, append_assoc. reflexivity.
Qed.

(** *** Every sentence holds at most one terminal, at its end *)

Lemma terminal_not_space (c : ascii) :
  Sentence_Terminal c = true -> Ascii.eqb c SPACE = false.
Proof.
  intros Hc. destruct (Ascii.eqb_spec c SPACE) as [->|]; [|reflexivity].
  discriminate Hc.
Qed.

Lemma noTerminal_append (a b : string) :
  noTerminal (a ++ b) = noTerminal a && noTerminal b.
Proof.
  induction a as [|x a IH]; simpl; [reflexivity|].
  now rewrite IH, andb_assoc.
Qed.

Lemma splitTerminated_shape (text : string) :
  forall cur, noTerminal cur = true ->
    Forall terminated (fst (splitTerminated cur text)) /\
    noTerminal (snd (splitTerminated cur text)) = true.
Proof.
  induction text as [|c text IH]; intros cur Hcur; simpl.
  - split; [constructor | exact Hcur].
  - destruct (Sentence_Terminal c) eqn:Hc.
    + destruct (IH EmptyString eq_refl) as [Hpieces Hrest].
      destruct (splitTerminated EmptyString text) as [pieces remainder].
      simpl in *. split; [|exact Hrest].
      constructor; [|exact Hpieces].
      exists cur, c. auto.
    + apply IH. rewrite noTerminal_append. simpl.
      now rewrite Hcur, Hc.
Qed.

Lemma trimStart_noTerminal (s : string) :
  noTerminal s = true -> noTerminal (trimStart s) = true.
Proof.
  induction s as [|c s IH]; simpl; intros Hs; [reflexivity|].
  apply andb_true_iff in Hs as [Hc Hs].
  destruct (Ascii.eqb c SPACE); [auto|].
  simpl. now rewrite Hc, Hs.
Qed.

Lemma trimEnd_noTerminal (s : string) :
  noTerminal s = true -> noTerminal (trimEnd s) = true.
Proof.
  induction s as [|c s IH]; simpl; intros Hs; [reflexivity|].
  apply andb_true_iff in Hs as [Hc Hs].
  specialize (IH Hs).
  destruct (trimEnd s) as [|d r].
  - destruct (Ascii.eqb c SPACE); simpl; [reflexivity | now rewrite Hc].
  - cbn [noTerminal] in *. now rewrite Hc, IH.
Qed.

Lemma trimStart_terminated (p : string) :
  terminated p -> terminated (trimStart p).
Proof.
  intros (body & c & -> & Hbody & Hc).
  induction body as [|x body IH]; simpl.
  - rewrite (terminal_not_space c Hc). exists EmptyString, c. auto.
  - simpl in Hbody. apply andb_true_iff in Hbody as [Hx Hbody].
    destruct (Ascii.eqb x SPACE); [auto|].
    exists (String x body), c. simpl. rewrite Hx, Hbody. auto.
Qed.

Lemma trimEnd_terminated (p : string) :
  terminated p -> trimEnd p = p.
Proof.
  intros (body & c & -> & _ & Hc).
  induction body as [|x body IH]; simpl.
  - now rewrite (terminal_not_space c Hc).
  - rewrite IH. destruct body; reflexivity.
Qed.

Lemma trimSpaces_terminated (p : string) :
  terminated p -> terminated (trimSpaces p).
Proof.
  intros Hp. unfold trimSpaces.
  apply trimStart_terminated in Hp.
  now rewrite (trimEnd_terminated _ Hp).
Qed.

Lemma stringToSentences_shape (text s : string) :
  In s (stringToSentences text) -> sentenceShape s.
Proof.
  rewrite stringToSentences_spec.
  destruct (splitTerminated_shape text EmptyString eq_refl) as [Hpieces Hrest].
  intros Hin. apply in_app_or in Hin as [Hin|Hin].
  - apply in_map_iff in Hin as (p & <- & Hp).
    right. apply trimSpaces_terminated.
    rewrite Forall_forall in Hpieces. auto.
  - left.
    assert (Htrim : noTerminal (trimSpaces (snd (splitTerminated EmptyString text))) = true)
      by (apply trimEnd_noTerminal, trimStart_noTerminal, Hrest).
    destruct (trimSpaces (snd (splitTerminated EmptyString text)));
      [contradiction|].
    destruct Hin as [<-|[]]. exact Htrim.
Qed.

(** No sentence is empty. *)
Lemma stringToSentences_nonempty (text : string) :
  ~ In EmptyString (stringToSentences text).
Proof.
  rewrite stringToSentences_spec.
  destruct (splitTerminated_shape text EmptyString eq_refl) as [Hpieces _].
  intros Hin. apply in_app_or in Hin as [Hin|Hin].
  - apply in_map_iff in Hin as (p & Hempty & Hp).
    rewrite Forall_forall in Hpieces.
    destruct (trimSpaces_terminated p (Hpieces p Hp)) as (body & c & Heq & _).
    rewrite Hempty in Heq. destruct body; discriminate.
  - destruct (trimSpaces (snd (splitTerminated EmptyString text)));
      [contradiction|].
    destruct Hin as [Heq|[]]. discriminate.
Qed.

(** *** The command pattern *)

Lemma matchLiteral_sound (literal : string) :
  forall s rest, matchLiteral literal s = Some rest ->
    exists word, s = word ++ rest /\ lower word = literal.
Proof.
  induction literal as [|p literal IH]; intros s rest Hm.
  - destruct s; inversion Hm; subst; exists EmptyString; auto.
  - destruct s as [|c s]; [discriminate|].
    simpl in Hm.
    destruct (Ascii.eqb_spec (toLowerCase c) p) as [<-|]; [|discriminate].
    destruct (IH s rest Hm) as (word & -> & <-).
    exists (String c word). auto.
Qed.

Lemma matchLiteral_complete (word rest : string) :
  matchLiteral (lower word) (word ++ rest) = Some rest.
Proof.
  induction word as [|c word IH]; simpl.
  - destruct rest; reflexivity.
  - now rewrite Ascii.eqb_refl.
Qed.

Lemma noTerminal_middle (word rest : string) (c : ascii) :
  Sentence_Terminal c = true -> noTerminal (word ++ String c rest) = false.
Proof.
  intros Hc. rewrite noTerminal_append. simpl. rewrite Hc.
  simpl. apply andb_false_r.
Qed.

(** A terminal inside a sentence that ends in its only terminal is that
    last character. *)
Lemma terminal_is_last (word : string) :
  forall body rest c d,
    word ++ String c rest = body ++ String d EmptyString ->
    noTerminal body = true -> Sentence_Terminal c = true ->
    rest = EmptyString /\ word = body /\ c = d.
Proof.
  induction word as [|x word IH]; intros body rest c d Heq Hbody Hc.
  - destruct body as [|b body]; simpl in Heq.
    + inversion Heq; auto.
    + inversion Heq; subst. simpl in Hbody. rewrite Hc in Hbody. discriminate.
  - destruct body as [|b body]; simpl in Heq.
    + inversion Heq as [[Hx Hnil]]. destruct word; discriminate.
    + inversion Heq as [[Hx Heq']]. subst b.
      simpl in Hbody. apply andb_true_iff in Hbody as [_ Hbody].
      destruct (IH body rest c d Heq' Hbody Hc) as (-> & -> & ->). auto.
Qed.

Lemma literalThenTerminal_sound (literal s : string) :
  sentenceShape s -> literalThenTerminal literal s = true ->
  exists word c, s = word ++ String c EmptyString /\
                 Sentence_Terminal c = true /\ lower word = literal.
Proof.
  intros Hshape Hm. unfold literalThenTerminal in Hm.
  destruct (matchLiteral literal s) as [[|c rest]|] eqn:Hlit; try discriminate.
  destruct (matchLiteral_sound _ _ _ Hlit) as (word & -> & Hword).
  destruct Hshape as [Hnone | (body & d & Heq & Hbody & Hd)].
  - rewrite (noTerminal_middle word rest c Hm) in Hnone. discriminate.
  - destruct (terminal_is_last word body rest c d Heq Hbody Hm) as (-> & _ & _).
    exists word, c. auto.
Qed.

Lemma literalThenTerminal_complete (word : string) (c : ascii) :
  Sentence_Terminal c = true ->
  literalThenTerminal (lower word) (word ++ String c EmptyString) = true.
Proof.
  intros Hc. unfold literalThenTerminal.
  now rewrite matchLiteral_complete.
Qed.

Lemma isNewLineCommand_iff (s : string) :
  sentenceShape s -> (isNewLineCommand s = true <-> isCommandSentence s).
Proof.
  intros Hshape. unfold isNewLineCommand, isCommandSentence. split.
  - intros Hm. apply orb_true_iff in Hm as [Hm|Hm];
      destruct (literalThenTerminal_sound _ _ Hshape Hm) as (word & c & Hs & Hc & Hw);
      exists word, c; auto.
  - intros (word & c & -> & Hc & [Hw|Hw]); rewrite <- Hw;
      rewrite (literalThenTerminal_complete word c Hc);
      [reflexivity | apply orb_true_r].
Qed.

End TextFacts.

(** C5. The transform applied to a final transcript cuts the text after
    every sentence terminal: the pieces, each ending in its only terminal,
    and what is left after the last terminal make up the text, and the
    sentences are the pieces trimmed of spaces, followed by what is left
    unless it trims to nothing (so no sentence is empty and none holds a
    terminal but as its last character).  The transform puts a
    paragraph break of exactly two line feeds in place of every sentence
    that is "new line" or "newline" in any case followed by one terminal,
    keeps every other sentence as it is, and joins the results with single
    spaces.  "Hello world. New line. Next thought." becomes
    "Hello world. \n\n Next thought.", and "Newline." is a command too. *)
Theorem C5_new_line_transform :
  (forall text,
      let pieces := fst (TextSpec.splitTerminated EmptyString text) in
      let remainder := snd (TextSpec.splitTerminated EmptyString text) in
      String.concat EmptyString pieces ++ remainder = text /\
      Forall TextSpec.terminated pieces /\
      TextSpec.noTerminal remainder = true /\
      stringToSentences text =
      (map trimSpaces pieces
       ++ match trimSpaces remainder with
          | EmptyString => []
          | last => [last]
          end)%list)
  /\ (forall text,
      applyTransforms text =
      String.concat " " (map TextSpec.replaceCommand (stringToSentences text)))
  /\ (forall text s, In s (stringToSentences text) ->
        TextSpec.sentenceShape s /\ s <> EmptyString /\
        (TextSpec.isCommandSentence s -> TextSpec.replaceCommand s = paragraphBreak) /\
        (~ TextSpec.isCommandSentence s -> TextSpec.replaceCommand s = s))
  /\ String.length paragraphBreak = 2
  /\ applyTransforms "Hello world. New line. Next thought."
     = "Hello world. " ++ paragraphBreak ++ " Next thought."
  /\ stringToSentences "Hello world. New line. Next thought."
     = ["Hello world."; "New line."; "Next thought."]
  /\ isNewLineCommand "Newline." = true
  /\ applyTransforms "Newline." = paragraphBreak.
Proof.
  split.
  { intros text pieces remainder.
    destruct (TextFacts.splitTerminated_shape text EmptyString eq_refl) as [Hp Hr].
    repeat split; auto.
    - apply (TextFacts.splitTerminated_partition text EmptyString).
    - apply TextFacts.stringToSentences_spec. }
  split; [reflexivity|].
  split; [|repeat split; reflexivity].
  intros text s Hin.
  pose proof (TextFacts.stringToSentences_shape text s Hin) as Hshape.
  pose proof (TextFacts.isNewLineCommand_iff s Hshape) as Hiff.
  split; [exact Hshape|]. split.
  - intros ->. exact (TextFacts.stringToSentences_nonempty text Hin).
  - unfold TextSpec.replaceCommand. split; intros Hc.
    + apply Hiff in Hc. now rewrite Hc.
    + destruct (isNewLineCommand s) eqn:Hm; [|reflexivity].
      exfalso. apply Hc, Hiff. reflexivity.
Qed.

(** The command sentence "NEW LINE!" among others. *)
Lemma C5_new_line_transform_witness :
  TextSpec.replaceCommand "NEW LINE!" = paragraphBreak /\
  TextSpec.replaceCommand "Fine." = "Fine.".
Proof.
  assert (Hin1 : In "NEW LINE!" (stringToSentences "Fine. NEW LINE!"))
    by (vm_compute; auto).
  assert (Hin2 : In "Fine." (stringToSentences "Fine. NEW LINE!"))
    by (vm_compute; auto).
  destruct C5_new_line_transform as (_ & _ & Hsent & _).
  split.
  - apply (proj1 (proj2 (proj2 (Hsent _ _ Hin1)))).
    exists "NEW LINE", "!"%char. repeat split. now left.
  - apply (proj2 (proj2 (proj2 (Hsent _ _ Hin2)))).
    intros (word & c & Heq & Hc & Hw).
    assert (Hlen : String.length "Fine." = String.length (word ++ String c EmptyString))
      by (now rewrite Heq).
    rewrite TextFacts.length_append in Hlen. simpl in Hlen.
    assert (Hword : String.length (TextSpec.lower word) = 4).
    { clear - Hlen. revert Hlen. generalize 4. induction word; simpl; intros; [lia|].
      destruct n; [lia|]. f_equal. apply IHword. lia. }
    destruct Hw as [Hw|Hw]; rewrite Hw in Hword; discriminate Hword.
Defined.

(* --------------------------------------------------------------------- *)
(** ** The rewrite request *)
(* --------------------------------------------------------------------- *)

Module RewriteFacts.

Import RewriteSpec.

Lemma truthy_false (s : string) : truthy s = false <-> s = EmptyString.
Proof. destruct s; simpl; split; intros; congruence. Qed.

(** Without the switch or without a prompt no request is made. *)
Lemma requestFor_none (settings : DictaphoneSettings) (apiKey text : string) :
  requestFor settings apiKey text = None <->
  postProcess settings = false \/ postProcessPrompt settings = EmptyString.
Proof.
  unfold requestFor.
  destruct (postProcess settings); simpl.
  - destruct (postProcessPrompt settings); simpl; split; intros Hn; auto;
      try discriminate Hn.
    destruct Hn; discriminate.
  - split; auto.
Qed.

Lemma settle_failed (text : string) (reply : Reply) :
  failed reply -> settle text reply = text.
Proof. intros [->|[->| ->]]; reflexivity. Qed.

(** What [settle] returns is the text or the non-empty [response]. *)
Lemma settle_cases (text : string) (reply : Reply) :
  settle text reply = text \/
  exists response, reply = Parsed (Some response) /\ response <> EmptyString /\
                   settle text reply = response.
Proof.
  destruct reply as [| |[response|]]; try (left; reflexivity).
  unfold settle. simpl.
  destruct response as [|c r]; [left; reflexivity|].
  right. exists (String c r). repeat split. discriminate.
Qed.

End RewriteFacts.

(** C6. With post-processing switched off or no prompt configured the
    rewrite returns its input and issues no request.  Otherwise it issues
    one request, and when the request is rejected, the reply does not
    parse or the reply has no [response] field, it returns its input.  In
    every case the result is the input or the non-empty [response] of the
    service. *)
Theorem C6_rewrite_falls_back_to_input :
  forall (settings : DictaphoneSettings) (apiKey : string)
         (network : Request -> Reply) (text : string),
    ((postProcess settings = false \/ postProcessPrompt settings = EmptyString) ->
     postProcessTranscript settings apiKey network text = (text, []))
    /\ (forall r, requestFor settings apiKey text = Some r ->
                  RewriteSpec.failed (network r) ->
                  postProcessTranscript settings apiKey network text = (text, [r]))
    /\ (fst (postProcessTranscript settings apiKey network text) = text \/
        exists r response,
          requestFor settings apiKey text = Some r /\
          input_text r = text /\
          network r = Parsed (Some response) /\ response <> EmptyString /\
          postProcessTranscript settings apiKey network text = (response, [r])).
Proof.
  intros settings apiKey network text. unfold postProcessTranscript.
  split; [|split].
  - intros Hoff. apply (RewriteFacts.requestFor_none settings apiKey text) in Hoff.
    now rewrite Hoff.
  - intros r Hr Hfail. rewrite Hr.
    now rewrite (RewriteFacts.settle_failed text _ Hfail).
  - destruct (requestFor settings apiKey text) as [r|] eqn:Hr; [|left; reflexivity].
    destruct (RewriteFacts.settle_cases text (network r))
      as [Hsame | (response & Hreply & Hne & Hsettle)].
    + left. exact Hsame.
    + right. exists r, response. repeat split; auto.
      * unfold requestFor in Hr.
        destruct (negb (postProcess settings) || negb (truthy (postProcessPrompt settings)));
          [discriminate|].
        inversion Hr. reflexivity.
      * now rewrite Hsettle.
Qed.

(** Switched off, and a reply that does not parse. *)
Lemma C6_rewrite_falls_back_to_input_witness :
  postProcessTranscript
    {| assemblyApiKey := "key"; postProcess := false;
       postProcessPrompt := "Fix it."; finalModel := "model" |}
    "key" (fun _ => Parsed (Some "changed")) "some text" = ("some text", [])
  /\ postProcessTranscript Plain.defaultSettings "key" (fun _ => Unparseable) "some text"
     = ("some text",
        [{| authorization := "key"; final_model := "model";
            prompt := "Correct grammar."; input_text := "some text" |}]).
Proof.
  split.
  - apply C6_rewrite_falls_back_to_input. left. reflexivity.
  - apply C6_rewrite_falls_back_to_input; [reflexivity|].
    right. left. reflexivity.
Defined.

(* --------------------------------------------------------------------- *)
(** ** The re-chunker *)
(* --------------------------------------------------------------------- *)

Module MicrophoneFacts.

Import Microphone.

Lemma newUint8Array_length (samples : list Z) :
  List.length (newUint8Array samples) = 2 * List.length samples.
Proof.
  unfold newUint8Array.
  induction samples as [|s samples IH]; simpl; [reflexivity|].
  rewrite IH. lia.
Qed.

Lemma elements_new (data : list Z) : elements (newInt16Array data) = data.
Proof. unfold elements, newInt16Array. simpl. apply firstn_all. Qed.

(** A view that starts [n] samples into a fresh array covers the samples
    after the first [n]. *)
Lemma elements_subarrayFrom (data : list Z) (n : nat) :
  elements (subarrayFrom (newInt16Array data) n) = skipn n data.
Proof.
  unfold elements, subarrayFrom, subarray, newInt16Array. simpl.
  rewrite Nat.min_id.
  destruct (Nat.le_gt_cases n (List.length data)) as [Hle|Hgt].
  - rewrite Nat.min_l by exact Hle.
    rewrite <- (length_skipn n data). apply firstn_all.
  - rewrite Nat.min_r by lia. rewrite Nat.sub_diag. simpl.
    symmetry. apply skipn_all2. lia.
Qed.

(** The frame handed out is the bytes of the WHOLE merged queue:
    [subarray(0, totalSamples).buffer] is the buffer of the queue, not the
    range the view covers. *)
Lemma onmessage_frame (audio_data : list Z) (m m' : t) (frame : list Z) :
  onmessage audio_data m = (m', Some frame) ->
  frame = newUint8Array (elements (audioBufferQueue m) ++ audio_data).
Proof.
  unfold onmessage. destruct (audioContext m) as [rate|]; [|discriminate].
  destruct (100 * rate <=? _)%Z; [|discriminate].
  intros Heq. inversion Heq. simpl. now rewrite elements_new.
Qed.

(** The queue itself keeps what follows the first [sampleRate / 10]
    samples. *)
Lemma onmessage_queue (audio_data : list Z) (m m' : t) (frame : list Z) (rate : Z) :
  audioContext m = Some rate ->
  onmessage audio_data m = (m', Some frame) ->
  elements (audioBufferQueue m') =
  skipn (Z.to_nat (rate / 10)) (elements (audioBufferQueue m) ++ audio_data).
Proof.
  unfold onmessage. intros ->.
  destruct (100 * rate <=? _)%Z; [|discriminate].
  intros Heq. inversion Heq. simpl.
  unfold mergeBuffers. rewrite elements_new. apply elements_subarrayFrom.
Qed.

End MicrophoneFacts.

(** C8, at thirteen worklet blocks of 128 samples (1664 samples at
    16 kHz): one frame is handed out, and it holds all 1664 samples (3328
    bytes), not 1600; the 64 samples after the first 1600 are in that frame
    and stay in the queue as well, so they go out again at the head of the
    next frame, which twelve more blocks produce. *)
Theorem C8_frame_is_whole_queue :
  let blocks := map MicrophoneSpec.renderQuantum (seq 0 13) in
  let more := map MicrophoneSpec.renderQuantum (seq 13 12) in
  let m := fst (Microphone.feed blocks MicrophoneSpec.recording) in
  List.length (List.concat blocks) = 1664
  /\ snd (Microphone.feed blocks MicrophoneSpec.recording)
     = [Microphone.newUint8Array (map Z.of_nat (seq 0 1664))]
  /\ map MicrophoneSpec.samplesIn (snd (Microphone.feed blocks MicrophoneSpec.recording))
     = [1664]
  /\ Microphone.elements (Microphone.audioBufferQueue m) = map Z.of_nat (seq 1600 64)
  /\ snd (Microphone.feed more m)
     = [Microphone.newUint8Array (map Z.of_nat (seq 1600 1600))]
  /\ Microphone.elements (Microphone.audioBufferQueue (fst (Microphone.feed more m))) = [].
Proof. vm_compute. repeat split. Qed.

(* --------------------------------------------------------------------- *)
(** ** The transcriber's handlers *)
(* --------------------------------------------------------------------- *)

Import SessionSpec.

Ltac js_unfold :=
  unfold handlePartialTranscript, handleFinalTranscript, onAudio, onmessage,
    stopTranscription, runPostProcess, resumePostProcess, finishPostProcess,
    callPostProcessTranscript, checkEditor, stopTranscriptionWith,
    dispatchStateEffect, microphoneStopRecording, microphoneStartRecording,
    editorReplaceRange, editorSetSelection, editorSetCursor, editorGetCursor,
    editorGetLine,
    socketSend, socketClose, emit, tryCatch, async, bind, ret, gets, modify, throw.

Ltac js_cbn :=
  cbn [fst snd settings apiKey microphone websocket transcribedLines activeEditor
       isTranscribing suspended editor effects
       setMicrophone setWebsocket setTranscribedLines setActiveEditor
       setIsTranscribing setSuspended setEditor setEffects negb orb andb app].

(** Rewriting with what is known of the world, then computing on. *)
Ltac js_know :=
  match goal with
  | K : websocket ?w = _ |- context [websocket ?w] => rewrite K
  | K : isTranscribing ?w = _ |- context [isTranscribing ?w] => rewrite K
  | K : activeEditor ?w = _ |- context [activeEditor ?w] => rewrite K
  | K : isConnected (editor ?w) = _ |- context [isConnected (editor ?w)] => rewrite K
  | K : transcribedLines ?w = _ |- context [transcribedLines ?w] => rewrite K
  | K : suspended ?w = _ |- context [suspended ?w] => rewrite K
  end.

Ltac js_run := js_unfold; repeat (progress js_cbn || js_know).

Section SessionFacts.

Context {E : Type} `{EditorHost E}.

Local Open Scope Z_scope.

(** *** The liveness check *)

Lemma checkEditor_live (w : World E) :
  live w -> checkEditor w = (Normal true, w).
Proof.
  intros [Hheld Hattached]. js_unfold. now rewrite Hheld, Hattached.
Qed.

Lemma containsLF_countLF (s : string) :
  containsLF s = true -> 0 < countLF s.
Proof.
  assert (Hnonneg : forall t, 0 <= countLF t).
  { induction t as [|c t IH]; cbn [countLF]; [lia|].
    destruct (Ascii.eqb c LF); lia. }
  induction s as [|c s IH]; cbn [containsLF countLF]; [discriminate|].
  specialize (Hnonneg s).
  destruct (Ascii.eqb c LF); cbn [orb]; intros Hc; [lia|].
  specialize (IH Hc). lia.
Qed.

(** C10. On a final transcript whose liveness check passes, the handler
    writes the transformed text (with a space after it unless it ends in a
    line feed) over the selection and then calls [setCursor] with
    [{line: from.line, ch: from.ch + insert.length}], a position on the
    line the cursor was on.  When the inserted text holds a line feed, as
    it does for the command "New line.", the inserted text ends on a later
    line, so that position is not its end. *)
Theorem C10_final_cursor_stays_on_line :
  forall (w : World E) (text : string),
    live w ->
    let start := getCursor SideFrom (editor w) in
    let stop := getCursor SideTo (editor w) in
    let insert := finalInsert text in
    let end_ := {| line := line start;
                   ch := ch start + Z.of_nat (String.length insert) |} in
    (exists w',
        handleFinalTranscript text w = (Normal tt, w') /\
        effects w' = (effects w ++ [EditorReplaceRange insert start stop true;
                                    EditorSetCursor end_])%list /\
        editor w' = setCursor end_ (replaceRange insert start stop (editor w)))
    /\ (containsLF insert = true -> end_ <> endOfInsert start insert)
    /\ finalInsert "New line." = paragraphBreak
    /\ containsLF paragraphBreak = true.
Proof.
  intros w text Hlive start stop insert end_.
  split; [|split; [|split; reflexivity]].
  - unfold handleFinalTranscript, bind at 1.
    rewrite (checkEditor_live w Hlive).
    destruct Hlive as [_ Hattached].
    js_unfold. js_cbn. rewrite Hattached.
    eexists. split; [reflexivity|]. js_cbn.
    rewrite <- app_assoc. split; reflexivity.
  - intros Hlf Heq. unfold endOfInsert in Heq. rewrite Hlf in Heq.
    apply containsLF_countLF in Hlf.
    apply (f_equal line) in Heq. simpl in Heq. lia.
Qed.

(** C9. A frame delivered while the session is not transcribing or the
    socket is not open is dropped: the audio callback completes normally
    and leaves the world as it was, so nothing is written to the socket
    and nothing is kept for later; the worklet message that produced the
    frame changes the microphone's queue and nothing else. *)
Theorem C9_frame_dropped_unless_open :
  forall (w : World E) (frame : list Z),
    isTranscribing w = false \/ websocket w <> Some OPEN ->
    onAudio frame w = (Normal tt, w)
    /\ forall audio_data,
        handle (WorkletMessage audio_data) w
        = (Normal tt,
           setMicrophone (fst (Microphone.onmessage audio_data (microphone w))) w).
Proof.
  intros w frame Hclosed.
  assert (Hdrop : forall f, onAudio f w = (Normal tt, w)).
  { intros f. js_unfold.
    destruct Hclosed as [-> | Hws]; [reflexivity|].
    destruct (isTranscribing w); [|reflexivity].
    destruct (websocket w) as [[]|]; try reflexivity. congruence. }
  split; [apply Hdrop|].
  intros audio_data. unfold handle, bind, gets.
  destruct (Microphone.onmessage audio_data (microphone w)) as [m' [f|]].
  - unfold modify. simpl.
    specialize (Hdrop f). revert Hdrop. js_unfold. js_cbn.
    destruct (isTranscribing w); [|reflexivity].
    destruct (websocket w) as [[]|]; try reflexivity.
    intros Hdrop. exfalso. destruct Hclosed; congruence.
  - reflexivity.
Qed.

(** *** Partial transcripts *)

Lemma widen_contains (r : LineRange) (l : Z) :
  from (widen r l) <= l <= to (widen r l).
Proof. unfold widen. destruct (from r =? -1); simpl; lia. Qed.

Lemma widen_grows (r : LineRange) (l : Z) :
  from r <> -1 -> from (widen r l) <= from r /\ to r <= to (widen r l).
Proof.
  intros Hr. unfold widen.
  destruct (Z.eqb_spec (from r) (-1)); [contradiction|]. simpl. lia.
Qed.

Lemma handlePartialTranscript_live (w : World E) (text : string) :
  live w ->
  let start := getCursor SideFrom (editor w) in
  let stop := getCursor SideTo (editor w) in
  let end_ := {| line := line start;
                 ch := ch start + Z.of_nat (String.length text) |} in
  handlePartialTranscript text w =
  (Normal tt,
   setTranscribedLines (widen (transcribedLines w) (line start))
     (setEffects (effects w ++ [EditorReplaceRange text start stop true;
                                EditorSetSelection start end_])
        (setEditor (setSelection start end_
                      (replaceRange text start stop (editor w))) w))).
Proof.
  intros Hlive start stop end_.
  unfold handlePartialTranscript, bind at 1.
  rewrite (checkEditor_live w Hlive).
  destruct Hlive as [_ Hattached].
  js_unfold. js_cbn. rewrite Hattached.
  unfold setTranscribedLines, setEffects, setEditor. js_cbn.
  rewrite <- app_assoc. reflexivity.
Qed.

(** With nothing suspended the microtask queue is empty. *)
Lemma drainMicrotasks_idle (w : World E) :
  suspended w = [] ->
  drainMicrotasks w = (Normal tt, setSuspended [] w).
Proof.
  intros Hs. unfold drainMicrotasks, bind, gets, modify. now rewrite Hs.
Qed.

(** One event of a dictation: what it does to the range of lines. *)
Lemma step_dictation (ev : Event E) (w : World E) :
  partialOrHost ev ->
  match ev with
  | SocketMessage _ text => truthy text = true -> live w
  | _ => True
  end ->
  suspended w = [] ->
  suspended (step ev w) = [] /\
  transcribedLines (step ev w) =
  match ev with
  | SocketMessage _ text =>
      if truthy text
      then widen (transcribedLines w) (line (getCursor SideFrom (editor w)))
      else transcribedLines w
  | _ => transcribedLines w
  end.
Proof.
  intros Hev Hlive Hs. unfold step.
  destruct ev as [| | |message_type text| | | | |e|]; try contradiction.
  - simpl in Hev. subst message_type.
    unfold handle, onmessage, tryCatch.
    destruct (truthy text).
    + rewrite String.eqb_refl.
      rewrite (handlePartialTranscript_live w text (Hlive eq_refl)).
      rewrite drainMicrotasks_idle by exact Hs. split; reflexivity.
    + unfold ret. cbn [fst snd].
      rewrite drainMicrotasks_idle by exact Hs. split; reflexivity.
  - unfold handle, modify. cbn [fst snd].
    rewrite drainMicrotasks_idle by exact Hs. split; reflexivity.
Qed.

Lemma spans_widen (r : LineRange) (seen : list Z) (l : Z) :
  spans r seen -> Forall (fun x => 0 <= x) seen -> 0 <= l ->
  spans (widen r l) (seen ++ [l]).
Proof.
  intros Hspans Hseen Hl. unfold widen.
  destruct seen as [|x seen].
  - simpl in Hspans. subst r. simpl.
    split; [now left|]. split; [now left|].
    intros l' [<-|[]]. lia.
  - destruct Hspans as (Hfrom & Hto & Hall).
    assert (Hne : from r <> -1).
    { rewrite Forall_forall in Hseen. specialize (Hseen _ Hfrom). simpl in Hseen. lia. }
    destruct (Z.eqb_spec (from r) (-1)); [contradiction|].
    cbn [spans app from to].
    assert (Hin : forall y, In y (x :: seen) -> In y (x :: seen ++ [l]))
      by (intros y Hy; change (In y ((x :: seen) ++ [l])); apply in_or_app; auto).
    assert (Hlast : In l (x :: seen ++ [l]))
      by (change (In l ((x :: seen) ++ [l])); apply in_or_app; right; left; reflexivity).
    split; [|split].
    + destruct (Z.min_spec (from r) l) as [[_ ->]|[_ ->]]; auto.
    + destruct (Z.max_spec (to r) l) as [[_ ->]|[_ ->]]; auto.
    + intros y Hy. change (In y ((x :: seen) ++ [l])) in Hy.
      apply in_app_or in Hy as [Hold|[<-|[]]]; [specialize (Hall _ Hold)|]; lia.
Qed.

(** Over a dictation the range runs from the least to the greatest line
    reported so far. *)
Lemma run_dictation_spans (evs : list (Event E)) :
  forall (w : World E) (seen : list Z),
    Forall partialOrHost evs -> checksPass evs w -> suspended w = [] ->
    spans (transcribedLines w) seen ->
    Forall (fun x => 0 <= x) (seen ++ reportedLines evs w) ->
    spans (transcribedLines (run evs w)) (seen ++ reportedLines evs w).
Proof.
  induction evs as [|ev evs IH]; intros w seen Hevs Hpass Hs Hspans Hpos.
  - simpl. now rewrite app_nil_r.
  - inversion Hevs as [|? ? Hev Hevs']; subst.
    destruct Hpass as [Hlive Hpass].
    destruct (step_dictation ev w Hev Hlive Hs) as [Hs' Hlines].
    cbn [run fold_left reportedLines] in *.
    rewrite app_assoc in *.
    apply IH; auto.
    rewrite Hlines.
    destruct ev as [| | |message_type text| | | | |e|];
      try (now rewrite app_nil_r).
    destruct (truthy text); [|now rewrite app_nil_r].
    apply Forall_app in Hpos as [Hpos _].
    apply Forall_app in Hpos as [Hseen Hl].
    apply spans_widen; auto. now inversion Hl.
Qed.

(** C7 (amended). On a partial transcript whose liveness check passes, the
    handler writes the text over the selection, sets the selection to
    cover the inserted text (from the old start of the selection to
    [text.length] columns after it on the same line) and widens the range
    of transcribed lines to include the line of the cursor, never
    shrinking it.  Starting from the empty range, after any sequence of
    partial transcripts whose checks pass, with the host free to move the
    cursor in between, the range runs from the least to the greatest of the
    lines reported (line numbers are not negative). *)
Theorem C7_partial_selects_insert_and_widens :
  forall (w : World E) (text : string),
    live w ->
    let start := getCursor SideFrom (editor w) in
    let stop := getCursor SideTo (editor w) in
    let end_ := {| line := line start;
                   ch := ch start + Z.of_nat (String.length text) |} in
    (exists w',
        handlePartialTranscript text w = (Normal tt, w') /\
        editor w' = setSelection start end_ (replaceRange text start stop (editor w)) /\
        effects w' = (effects w ++ [EditorReplaceRange text start stop true;
                                    EditorSetSelection start end_])%list /\
        transcribedLines w' = widen (transcribedLines w) (line start) /\
        from (transcribedLines w') <= line start <= to (transcribedLines w') /\
        (from (transcribedLines w) <> -1 ->
         from (transcribedLines w') <= from (transcribedLines w) /\
         to (transcribedLines w) <= to (transcribedLines w')))
    /\ forall evs : list (Event E),
        Forall partialOrHost evs -> checksPass evs w ->
        suspended w = [] -> transcribedLines w = emptyRange ->
        Forall (fun l => 0 <= l) (reportedLines evs w) ->
        spans (transcribedLines (run evs w)) (reportedLines evs w).
Proof.
  intros w text Hlive start stop end_. split.
  - eexists. split; [apply (handlePartialTranscript_live w text Hlive)|].
    cbn [editor effects transcribedLines setTranscribedLines setEffects setEditor].
    repeat split; try apply widen_contains; apply widen_grows; assumption.
  - intros evs Hevs Hpass Hs Hempty Hpos.
    apply (run_dictation_spans evs w [] Hevs Hpass Hs); [|exact Hpos].
    exact Hempty.
Qed.

(** *** Stopping *)

Lemma stopTranscription_idle (w : World E) (immediate : bool) :
  isTranscribing w = false -> stopTranscription immediate w = (Normal tt, w).
Proof.
  intros Hidle. unfold stopTranscription, stopTranscriptionWith, bind, gets.
  now rewrite Hidle.
Qed.

Lemma runPostProcess_normal (w : World E) : fst (runPostProcess w) = Normal tt.
Proof. reflexivity. Qed.

(** The rest of [stopTranscription] after the branch on [immediate]. *)
Lemma teardown_idle (w : World E) :
  isTranscribing
    (snd ((modify (setIsTranscribing false) ;;
           microphoneStopRecording ;;
           ws <- gets websocket ;;
           match ws with
           | Some CONNECTING | Some OPEN =>
               socketSend (SocketSendText terminateSession) ;;
               socketClose ;;
               modify (setWebsocket None)
           | _ => ret tt
           end)%js w)) = false.
Proof.
  destruct (websocket w) as [[]|] eqn:Hws; js_run; reflexivity.
Qed.

Lemma stopTranscription_makes_idle (w : World E) (immediate : bool) :
  isTranscribing (snd (stopTranscription immediate w)) = false.
Proof.
  destruct (isTranscribing w) eqn:Hrec;
    [|now rewrite stopTranscription_idle].
  unfold stopTranscription, stopTranscriptionWith.
  unfold bind at 1, gets at 1. rewrite Hrec. cbn [negb].
  unfold bind at 1.
  destruct immediate; cbn [negb].
  - unfold modify at 1. apply teardown_idle.
  - destruct (runPostProcess w) as [c w1] eqn:Hrun.
    pose proof (runPostProcess_normal w) as Hc. rewrite Hrun in Hc.
    simpl in Hc. subst c. apply teardown_idle.
Qed.

(** A second call right after a first one does nothing. *)
Lemma stopTranscription_twice (w : World E) (first second : bool) :
  stopTranscription second (snd (stopTranscription first w))
  = (Normal tt, snd (stopTranscription first w)).
Proof. apply stopTranscription_idle, stopTranscription_makes_idle. Qed.

(** An immediate stop leaves the range of transcribed lines as it is. *)
Lemma stopTranscription_immediate_lines (w : World E) :
  transcribedLines (snd (stopTranscription true w)) = transcribedLines w.
Proof.
  destruct (isTranscribing w) eqn:Hrec; [|js_run; reflexivity].
  destruct (websocket w) as [[]|] eqn:Hws; js_run; reflexivity.
Qed.

(** *** Post-processing *)

Lemma collectLines_spec (count : nat) :
  forall (i : Z) (w : World E),
    collectLines i count w =
    match linesOf (editor w) i count with
    | Some ls => (Normal ls, w)
    | None => (Throw RangeError, w)
    end.
Proof.
  induction count as [|count IH]; intros i w; [reflexivity|].
  cbn [collectLines linesOf]. unfold bind at 1, editorGetLine.
  destruct (getLine i (editor w)) as [l|]; [|reflexivity].
  unfold ret at 1, bind at 1. rewrite IH.
  destruct (linesOf (editor w) (i + 1) count); reflexivity.
Qed.

(** [runPostProcess] on a live editor with lines to rewrite: it signals
    the start of post-processing, issues the request if one is due, and
    waits. *)
Lemma runPostProcess_suspends (w : World E) (text : string) :
  live w -> from (transcribedLines w) <> -1 ->
  transcribedText w = Some text ->
  let request := requestFor (settings w) (apiKey w) text in
  runPostProcess w =
  (Normal tt,
   setSuspended (suspended w ++ [{| pendingText := text; pendingRequest := request |}])
     (setEffects (effects w ++ CmDispatch postprocessStart :: requestEffect request)
        (setEditor (cmDispatch postprocessStart (editor w)) w))).
Proof.
  intros Hlive Hfrom Htext request.
  unfold runPostProcess, async. f_equal.
  unfold bind at 1. rewrite (checkEditor_live w Hlive).
  destruct Hlive as [Hheld Hattached].
  unfold bind at 1, gets at 1. cbn [negb orb].
  destruct (Z.eqb_spec (from (transcribedLines w)) (-1)); [contradiction|].
  unfold bind at 1, tryCatch, bind at 1.
  unfold dispatchStateEffect at 1. js_run.
  rewrite collectLines_spec. js_cbn.
  unfold transcribedText in Htext.
  destruct (linesOf _ _ _) as [ls|]; [|discriminate].
  inversion Htext; subst text. js_cbn.
  subst request. cbv zeta.
  destruct (requestFor (settings w) (apiKey w) _) as [rq|];
    js_run; unfold requestEffect; rewrite <- ?app_assoc; reflexivity.
Qed.

(** [runPostProcess] with no line transcribed: no post-processing is
    signalled and nothing waits. *)
Lemma runPostProcess_nothing (w : World E) :
  live w -> from (transcribedLines w) = -1 ->
  runPostProcess w =
  (Normal tt,
   setEffects (effects w ++ [CmDispatch transcriptionEnd])
     (setEditor (cmDispatch transcriptionEnd (editor w))
        (setTranscribedLines emptyRange w))).
Proof.
  intros Hlive Hfrom.
  unfold runPostProcess, async. f_equal.
  unfold bind at 1. rewrite (checkEditor_live w Hlive).
  destruct Hlive as [Hheld Hattached].
  unfold bind at 1, gets at 1. rewrite Hfrom, Z.eqb_refl. js_run. reflexivity.
Qed.

(** The teardown on an open socket. *)
Lemma teardown_open (w : World E) :
  websocket w = Some OPEN ->
  (modify (setIsTranscribing false) ;;
   microphoneStopRecording ;;
   ws <- gets websocket ;;
   match ws with
   | Some CONNECTING | Some OPEN =>
       socketSend (SocketSendText terminateSession) ;;
       socketClose ;;
       modify (setWebsocket None)
   | _ => ret tt
   end)%js w
  = (Normal tt,
     setWebsocket None
       (setEffects (effects w ++ teardown)
          (setMicrophone (Microphone.stopRecording (microphone w))
             (setIsTranscribing false w)))).
Proof.
  intros Hws. js_run. unfold teardown.
  rewrite <- !app_assoc. reflexivity.
Qed.

Lemma captureStops_app (l l' : list Effect) :
  captureStops (l ++ l') = (captureStops l + captureStops l')%nat.
Proof. unfold captureStops. now rewrite filter_app, length_app. Qed.

(** What [finishPostProcess] leaves. *)
Lemma finishPostProcess_spec (w : World E) :
  exists w',
    finishPostProcess w = (Normal tt, w') /\
    transcribedLines w' = emptyRange /\ activeEditor w' = false /\
    isTranscribing w' = isTranscribing w /\
    suspended w' = suspended w /\
    effects w' = (effects w ++ if activeEditor w then [CmDispatch transcriptionEnd] else [])%list.
Proof.
  destruct (activeEditor w) eqn:Hheld; js_run; eexists;
    (split; [reflexivity|]); js_cbn; repeat split; auto.
  now rewrite app_nil_r.
Qed.

Lemma bind_normal {A B} (c : JS E A) (k : A -> JS E B) (w w1 : World E) (a : A) :
  c w = (Normal a, w1) -> bind c k w = k a w1.
Proof. intros Hc. unfold bind. now rewrite Hc. Qed.

Lemma bind_throw {A B} (c : JS E A) (k : A -> JS E B) (w w1 : World E) (e : Exn) :
  c w = (Throw e, w1) -> bind c k w = (Throw e, w1).
Proof. intros Hc. unfold bind. now rewrite Hc. Qed.

(** However the rewrite settles and whatever the editor has become, the
    resumed [runPostProcess] ends with the range empty and the editor
    released, and it does not touch the audio capture. *)
Lemma resumePostProcess_spec (p : Suspended) (reply : Reply) (w : World E) :
  exists w',
    resumePostProcess p reply w = (Normal tt, w') /\
    transcribedLines w' = emptyRange /\ activeEditor w' = false /\
    isTranscribing w' = isTranscribing w /\
    captureStops (effects w') = captureStops (effects w).
Proof.
  unfold resumePostProcess, async.
  set (first := match pendingRequest p with
                | None => _
                | Some _ => _
                end).
  assert (Hfirst : exists text w1, first w = (Normal text, w1) /\
                   isTranscribing w1 = isTranscribing w /\
                   captureStops (effects w1) = captureStops (effects w)).
  { subst first. destruct (pendingRequest p); [destruct (parseReply reply)|];
      js_run; do 2 eexists; (split; [reflexivity|]); js_cbn; repeat split;
      rewrite captureStops_app; unfold captureStops; simpl; lia. }
  destruct Hfirst as (text & w1 & Hfirst & Ht1 & Hc1).
  rewrite (bind_normal _ _ _ _ _ Hfirst).
  match goal with
  | |- context [bind (tryCatch ?body ?handler)] =>
      assert (Htry : exists w2, tryCatch body handler w1 = (Normal tt, w2) /\
                     isTranscribing w2 = isTranscribing w1 /\
                     captureStops (effects w2) = captureStops (effects w1))
  end.
  { clear. unfold tryCatch, bind at 1, gets at 1, bind at 1, editorGetLine.
    destruct (getLine _ (editor w1)) as [l|];
      js_run; eexists; (split; [reflexivity|]); js_cbn; repeat split;
      rewrite captureStops_app; unfold captureStops; simpl; lia. }
  destruct Htry as (w2 & Htry & Ht2 & Hc2).
  rewrite (bind_normal _ _ _ _ _ Htry).
  destruct (finishPostProcess_spec w2) as (w3 & Hfin & Hl3 & Ha3 & Ht3 & _ & He3).
  rewrite Hfin. cbn [snd]. exists w3.
  repeat split; auto; try congruence.
  rewrite He3, captureStops_app.
  destruct (activeEditor w2); unfold captureStops in *; simpl; lia.
Qed.

(** When the line that ends the range can be read, the resumed
    [runPostProcess] writes the settled text over the range, whether or not
    the editor is still attached. *)
Lemma resumePostProcess_writes (p : Suspended) (reply : Reply) (w : World E) (l : string) :
  getLine (to (transcribedLines w)) (editor w) = Some l ->
  let start := {| line := from (transcribedLines w); ch := 0 |} in
  let stop := {| line := to (transcribedLines w); ch := Z.of_nat (String.length l) |} in
  exists console w',
    resumePostProcess p reply w = (Normal tt, w') /\
    Forall (eq ConsoleError) console /\
    effects w' =
    (effects w ++ console
     ++ EditorReplaceRange (resumedText p reply) start stop (isConnected (editor w))
     :: (if activeEditor w then [CmDispatch transcriptionEnd] else []))%list.
Proof.
  intros Hline start stop.
  unfold resumePostProcess, async, resumedText, settle.
  destruct (pendingRequest p) as [r|]; [destruct (parseReply reply) as [response|]|].
  1, 3: exists [].
  3: exists [ConsoleError].
  all: js_run; rewrite Hline; js_run.
  all: destruct (activeEditor w) eqn:Hheld; js_run.
  all: eexists; (split; [reflexivity|]); (split; [repeat constructor|]).
  all: js_cbn; rewrite <- ?app_assoc; reflexivity.
Qed.

(** C2 (amended).  A stop that is not immediate, on a recording session
    whose editor is live, whose range of lines is not empty and whose
    socket is open, signals the start of post-processing and issues the
    rewrite request; it then runs the teardown at once (audio capture
    stopped, termination sent, socket closed, [isTranscribing] false) while
    the rewrite is still waiting and the range still set.  When the rewrite
    settles, the text is written over the range, the range is emptied and
    the end of transcription is signalled.  With an empty range no
    post-processing is signalled: the end is signalled and the teardown
    runs.  On every path [isTranscribing] is false after a stop, and the
    range is empty after a resumed post-processing, whatever the reply and
    the editor. *)
Theorem C2_teardown_does_not_wait_for_rewrite :
  (forall (w : World E) (text : string),
      isTranscribing w = true -> live w ->
      from (transcribedLines w) <> -1 ->
      transcribedText w = Some text ->
      websocket w = Some OPEN ->
      let request := requestFor (settings w) (apiKey w) text in
      exists w',
        stopTranscription false w = (Normal tt, w') /\
        effects w' = (effects w ++ CmDispatch postprocessStart
                                   :: requestEffect request ++ teardown)%list /\
        suspended w' = (suspended w ++ [{| pendingText := text;
                                           pendingRequest := request |}])%list /\
        isTranscribing w' = false /\ websocket w' = None /\
        transcribedLines w' = transcribedLines w /\ activeEditor w' = true)
  /\ (forall (w : World E) (p : Suspended) (reply : Reply) (l : string),
        activeEditor w = true ->
        getLine (to (transcribedLines w)) (editor w) = Some l ->
        exists console w',
          resumePostProcess p reply w = (Normal tt, w') /\
          Forall (eq ConsoleError) console /\
          effects w' =
          (effects w ++ console
           ++ [EditorReplaceRange (resumedText p reply)
                 {| line := from (transcribedLines w); ch := 0 |}
                 {| line := to (transcribedLines w); ch := Z.of_nat (String.length l) |}
                 (isConnected (editor w));
               CmDispatch transcriptionEnd])%list /\
          transcribedLines w' = emptyRange /\ activeEditor w' = false)
  /\ (forall w : World E,
        isTranscribing w = true -> live w ->
        from (transcribedLines w) = -1 ->
        websocket w = Some OPEN ->
        exists w',
          stopTranscription false w = (Normal tt, w') /\
          effects w' = (effects w ++ CmDispatch transcriptionEnd :: teardown)%list /\
          suspended w' = suspended w /\
          isTranscribing w' = false /\ transcribedLines w' = emptyRange)
  /\ (forall (w : World E) (immediate : bool),
        isTranscribing (snd (stopTranscription immediate w)) = false)
  /\ (forall (w : World E) (p : Suspended) (reply : Reply),
        exists w',
          resumePostProcess p reply w = (Normal tt, w') /\
          transcribedLines w' = emptyRange /\
          isTranscribing w' = isTranscribing w).
Proof.
  split; [|split; [|split; [|split]]].
  - intros w text Hrec Hlive Hfrom Htext Hws request.
    unfold stopTranscription, stopTranscriptionWith.
    unfold bind at 1, gets at 1. rewrite Hrec. cbn [negb].
    unfold bind at 1.
    rewrite (runPostProcess_suspends w text Hlive Hfrom Htext).
    rewrite teardown_open by exact Hws.
    eexists. split; [reflexivity|]. js_cbn.
    destruct Hlive as [Hheld _].
    repeat split; auto.
    fold request. rewrite <- app_assoc. reflexivity.
  - intros w p reply l Hheld Hline.
    destruct (resumePostProcess_writes p reply w l Hline) as (console & w' & Hrun & Hcons & Heff).
    destruct (resumePostProcess_spec p reply w) as (w'' & Hrun' & Hlines & Hrel & _).
    rewrite Hrun in Hrun'. inversion Hrun'; subst w''.
    exists console, w'. rewrite Hheld in Heff. auto.
  - intros w Hrec Hlive Hfrom Hws.
    unfold stopTranscription, stopTranscriptionWith.
    unfold bind at 1, gets at 1. rewrite Hrec. cbn [negb].
    unfold bind at 1.
    rewrite (runPostProcess_nothing w Hlive Hfrom).
    rewrite teardown_open by exact Hws.
    eexists. split; [reflexivity|]. js_cbn.
    repeat split; auto.
    rewrite <- app_assoc. reflexivity.
  - apply stopTranscription_makes_idle.
  - intros w p reply.
    destruct (resumePostProcess_spec p reply w) as (w' & Hrun & Hlines & _ & Hrec & _).
    exists w'. auto.
Qed.

(** *** When the liveness check fails *)

(** After a failed check, both transcript handlers do what an immediate
    stop does and nothing more. *)
Lemma transcript_handlers_dead (w : World E) (text : string) :
  ~ live w ->
  handlePartialTranscript text w = stopTranscription true w /\
  handleFinalTranscript text w = stopTranscription true w.
Proof.
  intros Hdead. unfold live in Hdead.
  destruct (activeEditor w) eqn:Hheld;
    destruct (isConnected (editor w)) eqn:Hattached;
    try (exfalso; auto; fail);
    destruct (isTranscribing w) eqn:Hrec;
    destruct (websocket w) as [[]|] eqn:Hws; js_run; split; reflexivity.
Qed.

(** An immediate stop does not touch the editor. *)
Lemma stopTranscription_immediate_editor (w : World E) :
  editor (snd (stopTranscription true w)) = editor w /\
  wroteDetached (effects (snd (stopTranscription true w))) = wroteDetached (effects w).
Proof.
  unfold wroteDetached.
  destruct (isTranscribing w) eqn:Hrec;
    destruct (websocket w) as [[]|] eqn:Hws; js_run;
    rewrite ?existsb_app; simpl; rewrite ?orb_false_r; split; reflexivity.
Qed.

(** The liveness check that fails while recording on an open socket: the
    immediate stop it calls runs the teardown. *)
Lemma checkEditor_dead (w : World E) :
  isTranscribing w = true -> ~ live w -> websocket w = Some OPEN ->
  checkEditor w =
  (Normal false,
   setWebsocket None
     (setEffects (effects w ++ teardown)
        (setMicrophone (Microphone.stopRecording (microphone w))
           (setIsTranscribing false (setActiveEditor false w))))).
Proof.
  intros Hrec Hdead Hws.
  assert (Hcheck : negb (activeEditor w) || negb (isConnected (editor w)) = true).
  { unfold live in Hdead.
    destruct (activeEditor w), (isConnected (editor w)); try reflexivity.
    exfalso. auto. }
  unfold checkEditor, bind at 1, gets at 1, bind at 1, gets at 1.
  rewrite Hcheck. unfold bind at 1, stopTranscriptionWith.
  unfold bind at 1, gets at 1. rewrite Hrec. cbn [negb].
  unfold bind at 1, modify at 1.
  rewrite (teardown_open (setActiveEditor false w)) by exact Hws.
  reflexivity.
Qed.

(** [runPostProcess] on an editor that fails the check: the nested
    immediate stop, then the range is emptied; no end of transcription can
    be signalled, the editor being released. *)
Lemma runPostProcess_dead (w : World E) :
  isTranscribing w = true -> ~ live w -> websocket w = Some OPEN ->
  runPostProcess w =
  (Normal tt,
   setTranscribedLines emptyRange
     (setWebsocket None
        (setEffects (effects w ++ teardown)
           (setMicrophone (Microphone.stopRecording (microphone w))
              (setIsTranscribing false (setActiveEditor false w)))))).
Proof.
  intros Hrec Hdead Hws. unfold runPostProcess, async. f_equal.
  rewrite (bind_normal _ _ _ _ _ (checkEditor_dead w Hrec Hdead Hws)).
  unfold bind at 1, gets at 1. cbn [negb orb].
  unfold bind, modify, dispatchStateEffect, gets. reflexivity.
Qed.

(** The teardown when the socket is already released. *)
Lemma teardown_released (w : World E) :
  websocket w = None ->
  (modify (setIsTranscribing false) ;;
   microphoneStopRecording ;;
   ws <- gets websocket ;;
   match ws with
   | Some CONNECTING | Some OPEN =>
       socketSend (SocketSendText terminateSession) ;;
       socketClose ;;
       modify (setWebsocket None)
   | _ => ret tt
   end)%js w
  = (Normal tt,
     setEffects (effects w ++ [MicStopRecording])
       (setMicrophone (Microphone.stopRecording (microphone w))
          (setIsTranscribing false w))).
Proof. intros Hws. js_run. reflexivity. Qed.

(** A stop that is not immediate on an editor that fails the check: the
    nested immediate stop runs the teardown, and the outer call stops the
    audio capture once more. *)
Lemma stopTranscription_nested (w : World E) :
  isTranscribing w = true -> ~ live w -> websocket w = Some OPEN ->
  exists w',
    stopTranscription false w = (Normal tt, w') /\
    effects w' = (effects w ++ teardown ++ [MicStopRecording])%list /\
    transcribedLines w' = emptyRange /\
    activeEditor w' = false /\ isTranscribing w' = false.
Proof.
  intros Hrec Hdead Hws.
  unfold stopTranscription, stopTranscriptionWith.
  unfold bind at 1, gets at 1. rewrite Hrec. cbn [negb].
  unfold bind at 1.
  rewrite (runPostProcess_dead w Hrec Hdead Hws).
  rewrite teardown_released by reflexivity.
  eexists. split; [reflexivity|]. js_cbn.
  rewrite <- app_assoc. repeat split.
Qed.

(** *** The range stays in order *)

Lemma keeps_ret {A} (P : World E -> Prop) (a : A) : keeps P (ret a).
Proof. intros w Hw. exact Hw. Qed.

Lemma keeps_throw {A} (P : World E -> Prop) (e : Exn) : keeps P (@throw E A e).
Proof. intros w Hw. exact Hw. Qed.

Lemma keeps_gets {A} (P : World E -> Prop) (f : World E -> A) : keeps P (gets f).
Proof. intros w Hw. exact Hw. Qed.

Lemma keeps_modify (P : World E -> Prop) (f : World E -> World E) :
  (forall w, P w -> P (f w)) -> keeps P (modify f).
Proof. intros Hf w Hw. apply Hf, Hw. Qed.

Lemma keeps_bind {A B} (P : World E -> Prop) (c : JS E A) (k : A -> JS E B) :
  keeps P c -> (forall a, keeps P (k a)) -> keeps P (bind c k).
Proof.
  intros Hc Hk w Hw. unfold bind.
  specialize (Hc w Hw). destruct (c w) as [[a|e] w1]; cbn [snd] in *.
  - apply Hk, Hc.
  - exact Hc.
Qed.

Lemma keeps_tryCatch {A} (P : World E -> Prop) (c : JS E A) (handler : Exn -> JS E A) :
  keeps P c -> (forall e, keeps P (handler e)) -> keeps P (tryCatch c handler).
Proof.
  intros Hc Hh w Hw. unfold tryCatch.
  specialize (Hc w Hw). destruct (c w) as [[a|e] w1]; cbn [snd] in *.
  - exact Hc.
  - apply Hh, Hc.
Qed.

Lemma keeps_async (P : World E -> Prop) (c : JS E unit) :
  keeps P c -> keeps P (async c).
Proof. intros Hc w Hw. unfold async. cbn [snd]. apply Hc, Hw. Qed.

(** Splitting a computation along its structure; what is left are the
    writes to the world and the calls of other methods. *)
Ltac keeps_split :=
  repeat match goal with
    | |- keeps _ (ret _) => apply keeps_ret
    | |- keeps _ (throw _) => apply keeps_throw
    | |- keeps _ (gets _) => apply keeps_gets
    | |- keeps _ (async _) => apply keeps_async
    | |- keeps _ (bind _ _) => apply keeps_bind; [|intro]
    | |- keeps _ (tryCatch _ _) => apply keeps_tryCatch; [|intro]
    | |- keeps _ (if ?b then _ else _) => destruct b
    | |- keeps _ (match ?x with _ => _ end) => destruct x
    end.

(** A write that leaves the range alone, or sets it in order. *)
Ltac keeps_write :=
  match goal with
  | |- keeps _ (modify _) => apply keeps_modify
  | |- keeps _ (emit _) => apply keeps_modify
  end;
  intros ? ?; unfold ordered in *; js_cbn;
  cbn [emptyRange from to]; first [assumption | lia].

Ltac keeps_ordered := keeps_split; try (solve [keeps_write]).

Lemma emit_ordered (e : Effect) : keeps (@ordered E) (emit e).
Proof. unfold emit. keeps_ordered. Qed.

Lemma socketSend_ordered (data : Effect) : keeps (@ordered E) (socketSend data).
Proof.
  intros w Hw. unfold socketSend.
  destruct (websocket w) as [[]|]; exact Hw.
Qed.

Lemma socketClose_ordered : keeps (@ordered E) socketClose.
Proof.
  intros w Hw. unfold socketClose.
  destruct (websocket w) as [[]|]; exact Hw.
Qed.

Lemma editorGetLine_ordered (n : Z) : keeps (@ordered E) (editorGetLine n).
Proof.
  intros w Hw. unfold editorGetLine. destruct (getLine n (editor w)); exact Hw.
Qed.

Lemma widen_ordered (f : World E -> Z) :
  keeps ordered
    (modify (fun w => setTranscribedLines (widen (transcribedLines w) (f w)) w)).
Proof.
  apply keeps_modify. intros w _. unfold ordered. js_cbn.
  pose proof (widen_contains (transcribedLines w) (f w)). lia.
Qed.

Lemma stopTranscriptionWith_ordered (post : JS E unit) (immediate : bool) :
  keeps ordered post -> keeps ordered (stopTranscriptionWith post immediate).
Proof.
  intros Hpost.
  unfold stopTranscriptionWith, microphoneStopRecording.
  keeps_ordered; auto using socketSend_ordered, socketClose_ordered.
Qed.

Lemma checkEditor_ordered : keeps (@ordered E) checkEditor.
Proof.
  unfold checkEditor. keeps_ordered.
  apply stopTranscriptionWith_ordered, keeps_ret.
Qed.

Lemma collectLines_ordered (count : nat) :
  forall i, keeps (@ordered E) (collectLines i count).
Proof.
  induction count as [|count IH]; intros i; cbn [collectLines]; keeps_ordered;
    auto using editorGetLine_ordered.
Qed.

Lemma finishPostProcess_ordered : keeps (@ordered E) finishPostProcess.
Proof. unfold finishPostProcess, dispatchStateEffect. keeps_ordered. Qed.

Lemma runPostProcess_ordered : keeps (@ordered E) runPostProcess.
Proof.
  unfold runPostProcess, callPostProcessTranscript, dispatchStateEffect.
  keeps_ordered;
    auto using checkEditor_ordered, collectLines_ordered, finishPostProcess_ordered.
Qed.

Lemma resumePostProcess_ordered (p : Suspended) (reply : Reply) :
  keeps (@ordered E) (resumePostProcess p reply).
Proof.
  unfold resumePostProcess, editorReplaceRange.
  keeps_ordered; auto using editorGetLine_ordered, finishPostProcess_ordered.
Qed.

Lemma stopTranscription_ordered (immediate : bool) :
  keeps (@ordered E) (stopTranscription immediate).
Proof. apply stopTranscriptionWith_ordered, runPostProcess_ordered. Qed.

Lemma handlePartialTranscript_ordered (text : string) :
  keeps (@ordered E) (handlePartialTranscript text).
Proof.
  unfold handlePartialTranscript, editorSetSelection, editorGetCursor,
    editorReplaceRange.
  keeps_ordered; auto using checkEditor_ordered.
  match goal with
  | |- keeps _ (modify (fun w => setTranscribedLines (widen _ (line ?s)) w)) =>
      apply (widen_ordered (fun _ => line s))
  end.
Qed.

Lemma handleFinalTranscript_ordered (text : string) :
  keeps (@ordered E) (handleFinalTranscript text).
Proof.
  unfold handleFinalTranscript, editorSetCursor, editorGetCursor,
    editorReplaceRange.
  keeps_ordered; auto using checkEditor_ordered.
  match goal with
  | |- keeps _ (modify (fun w => setTranscribedLines (widen _ (line ?s)) w)) =>
      apply (widen_ordered (fun _ => line s))
  end.
Qed.

Lemma handle_ordered (ev : Event E) : keeps ordered (handle ev).
Proof.
  destruct ev; cbn [handle].
  - unfold startTranscription, microphoneStartRecording, dispatchStateEffect.
    keeps_ordered; auto using stopTranscription_ordered.
  - apply stopTranscription_ordered.
  - apply keeps_modify. intros w Hw.
    destruct (websocket w) as [[]|]; exact Hw.
  - unfold onmessage. keeps_ordered;
      auto using handlePartialTranscript_ordered, handleFinalTranscript_ordered.
  - keeps_ordered; auto using stopTranscription_ordered.
  - keeps_ordered; auto using stopTranscription_ordered.
    apply keeps_modify. intros w Hw. destruct (websocket w); exact Hw.
  - unfold onAudio. keeps_ordered; auto using socketSend_ordered.
  - unfold handleDeviceChange, onDisconnect, microphoneStopRecording.
    keeps_ordered; auto using stopTranscription_ordered.
  - keeps_ordered.
  - keeps_ordered; auto using resumePostProcess_ordered.
Qed.

Lemma resumeAll_ordered (ps : list Suspended) : keeps (@ordered E) (resumeAll ps).
Proof.
  induction ps as [|p ps IH]; cbn [resumeAll]; keeps_ordered;
    auto using resumePostProcess_ordered.
Qed.

Lemma step_ordered (ev : Event E) (w : World E) : ordered w -> ordered (step ev w).
Proof.
  intros Hw. unfold step.
  assert (Hdrain : keeps (@ordered E) drainMicrotasks)
    by (unfold drainMicrotasks; keeps_ordered; auto using resumeAll_ordered).
  apply Hdrain, handle_ordered, Hw.
Qed.

(** Whatever happens, the range of transcribed lines keeps its start at
    or before its end. *)
Lemma run_ordered (evs : list (Event E)) :
  forall w, ordered w -> ordered (run evs w).
Proof.
  induction evs as [|ev evs IH]; intros w Hw; [exact Hw|].
  cbn [run fold_left]. apply IH, step_ordered, Hw.
Qed.

Lemma reachable_ordered (evs : list (Event E)) (s : DictaphoneSettings) (e : E) :
  ordered (run evs (initialWorld s e)).
Proof. apply run_ordered. unfold ordered. simpl. lia. Qed.

End SessionFacts.

(* --------------------------------------------------------------------- *)
(** ** Runs of the session on the plain editor *)
(* --------------------------------------------------------------------- *)

Local Open Scope Z_scope.

(** C1, at a partial transcript on line 3, the document closed, and one
    more partial transcript: the liveness check fails, the session stops
    at once and is no longer transcribing, and the range of transcribed
    lines is still 3 to 3, not the empty range.  A later session in another
    document starts from that range: one transcript on line 0 makes it 0
    to 3. *)
Theorem C1_immediate_stop_keeps_range :
  let closed := Scenario.closeDocument Scenario.dictated in
  let stopped := step (SocketMessage "PartialTranscript" "hello world") closed in
  let next :=
    run [HostUpdate (Plain.at_ ["Tuesday"] {| line := 0; ch := 0 |});
         StartTranscription (Some "token") true; SocketOpened;
         SocketMessage "PartialTranscript" "hi"] stopped in
  transcribedLines Scenario.dictated = {| from := 3; to := 3 |}
  /\ isTranscribing closed = true
  /\ isTranscribing stopped = false
  /\ activeEditor stopped = false
  /\ suspended stopped = []
  /\ transcribedLines stopped = {| from := 3; to := 3 |}
  /\ transcribedLines stopped <> emptyRange
  /\ transcribedLines next = {| from := 0; to := 3 |}.
Proof. vm_compute. repeat split. discriminate. Qed.

(** C2, refuted at a stop after one partial transcript: once the stop has
    returned, the audio capture is stopped, the termination is sent, the
    socket is closed and the session is no longer transcribing, while the
    rewrite request is still waiting for its reply, the range is still 3 to
    3, the editor still shows post-processing and the document is as it
    was. *)
Lemma C2_teardown_precedes_rewrite :
  let waiting := step (StopTranscription false) Scenario.dictated in
  let request := {| authorization := "key"; final_model := "model";
                    prompt := "Correct grammar."; input_text := "hello" |} in
  effects waiting =
  (effects Scenario.dictated
   ++ [CmDispatch postprocessStart; HttpRequest request;
       MicStopRecording; SocketSendText terminateSession; SocketClose])%list
  /\ isTranscribing waiting = false
  /\ websocket waiting = None
  /\ Microphone.audioContext (microphone waiting) = None
  /\ suspended waiting = [{| pendingText := "hello"; pendingRequest := Some request |}]
  /\ transcribedLines waiting = {| from := 3; to := 3 |}
  /\ Plain.dictation (editor waiting) = Processing
  /\ Plain.doc (editor waiting) = Plain.doc (editor Scenario.dictated).
Proof. vm_compute. repeat split. Qed.

(** The stop of the run above, and the reply that settles it. *)
Lemma C2_teardown_does_not_wait_for_rewrite_witness :
  (exists w',
      stopTranscription false Scenario.dictated = (Normal tt, w') /\
      effects w' =
      (effects Scenario.dictated
       ++ CmDispatch postprocessStart
          :: SessionSpec.requestEffect
               (requestFor (settings Scenario.dictated) (apiKey Scenario.dictated) "hello")
          ++ SessionSpec.teardown)%list /\
      suspended w' =
      (suspended Scenario.dictated
       ++ [{| pendingText := "hello";
              pendingRequest :=
                requestFor (settings Scenario.dictated) (apiKey Scenario.dictated) "hello" |}])%list /\
      isTranscribing w' = false /\ websocket w' = None /\
      transcribedLines w' = transcribedLines Scenario.dictated /\
      activeEditor w' = true)
  /\ isTranscribing (snd (stopTranscription true Scenario.recording)) = false.
Proof.
  split.
  - apply (proj1 (@C2_teardown_does_not_wait_for_rewrite Plain.Editor Plain.host)
             Scenario.dictated "hello").
    + reflexivity.
    + split; reflexivity.
    + vm_compute. discriminate.
    + reflexivity.
    + reflexivity.
  - apply (proj1 (proj2 (proj2 (proj2
             (@C2_teardown_does_not_wait_for_rewrite Plain.Editor Plain.host))))).
Defined.

(** C3, at a stop on a live editor, the document closed while the rewrite
    request is out, and the reply "Hello.": the check made at the stop
    passed, nothing had been written to a detached editor until then, and
    the resumed post-processing writes the reply over line 3 of the
    detached editor without a check. *)
Theorem C3_rewrite_written_to_detached_editor :
  let waiting := step (StopTranscription false) Scenario.dictated in
  let closed := Scenario.closeDocument waiting in
  let settled := step (RewriteSettled 0 (Parsed (Some "Hello."))) closed in
  Plain.connected (editor Scenario.dictated) = true
  /\ List.length (suspended waiting) = 1%nat
  /\ Plain.connected (editor closed) = false
  /\ SessionSpec.wroteDetached (effects closed) = false
  /\ effects settled =
     (effects closed
      ++ [EditorReplaceRange "Hello." {| line := 3; ch := 0 |}
            {| line := 3; ch := 5 |} false;
          CmDispatch transcriptionEnd])%list
  /\ SessionSpec.wroteDetached (effects settled) = true
  /\ Plain.doc (editor closed) = ["Monday"; "Shopping"; "Calls"; "hello"]
  /\ Plain.doc (editor settled) = ["Monday"; "Shopping"; "Calls"; "Hello."].
Proof. vm_compute. repeat split. Qed.

(** C4, at a stop that is not immediate once the document is closed, from
    the user or from an error of the socket: the liveness check inside
    post-processing fails and calls the immediate stop, which runs the
    whole teardown; the outer call then goes on and stops the audio capture
    a second time. *)
Theorem C4_nested_stop_repeats_teardown :
  let closed := Scenario.closeDocument Scenario.recording in
  let stopped := step (StopTranscription false) closed in
  isTranscribing closed = true
  /\ SessionSpec.captureStops (effects closed) = 0%nat
  /\ effects stopped =
     (effects closed
      ++ [MicStopRecording; SocketSendText terminateSession; SocketClose;
          MicStopRecording])%list
  /\ SessionSpec.captureStops (effects stopped) = 2%nat
  /\ SessionSpec.captureStops (effects (step SocketError closed)) = 2%nat
  /\ SessionSpec.captureStops (effects (step SocketClosed closed)) = 2%nat.
Proof. vm_compute. repeat split. Qed.

(** C7, refuted at the partial transcript "hello" with the cursor at the
    start of line 3: afterwards the selection runs from the start of the
    inserted text to its end, so it covers the text and its near end is not
    after it. *)
Lemma C7_selection_covers_insert :
  let w := Scenario.dictated in
  Plain.doc (editor w) = ["Monday"; "Shopping"; "Calls"; "hello"]
  /\ getCursor SideFrom (editor w) = {| line := 3; ch := 0 |}
  /\ getCursor SideTo (editor w) = {| line := 3; ch := 5 |}
  /\ getCursor SideFrom (editor w) <> {| line := 3; ch := 5 |}.
Proof. vm_compute. repeat split. discriminate. Qed.

(** A partial transcript on line 3, then the cursor moved to line 1 and a
    second one. *)
Lemma C7_partial_selects_insert_and_widens_witness :
  (exists w',
      handlePartialTranscript "hello" Scenario.recording = (Normal tt, w') /\
      transcribedLines w' = {| from := 3; to := 3 |})
  /\ SessionSpec.spans
       (transcribedLines
          (run [SocketMessage "PartialTranscript" "hello";
                HostUpdate (Plain.at_ Scenario.notes {| line := 1; ch := 0 |});
                SocketMessage "PartialTranscript" "eggs"] Scenario.recording))
       [3; 1].
Proof.
  pose proof (@C7_partial_selects_insert_and_widens Plain.Editor Plain.host
                Scenario.recording "hello" (conj eq_refl eq_refl)) as [Hone Hmany].
  split.
  - destruct Hone as (w' & Hrun & _ & _ & Hlines & _).
    exists w'. split; [exact Hrun|]. rewrite Hlines. reflexivity.
  - apply (Hmany [SocketMessage "PartialTranscript" "hello";
                  HostUpdate (Plain.at_ Scenario.notes {| line := 1; ch := 0 |});
                  SocketMessage "PartialTranscript" "eggs"]).
    + repeat constructor.
    + simpl. repeat split; reflexivity.
    + reflexivity.
    + reflexivity.
    + vm_compute. repeat constructor; discriminate.
Defined.

(** A frame that arrives before the session has started, and one that
    arrives while the socket is still connecting. *)
Lemma C9_frame_dropped_unless_open_witness :
  onAudio [1; 2; 3; 4] Scenario.fresh = (Normal tt, Scenario.fresh)
  /\ onAudio [1; 2; 3; 4] (step (StartTranscription (Some "token") true) Scenario.fresh)
     = (Normal tt, step (StartTranscription (Some "token") true) Scenario.fresh).
Proof.
  split.
  - apply (@C9_frame_dropped_unless_open Plain.Editor Plain.host Scenario.fresh [1; 2; 3; 4]).
    left. reflexivity.
  - apply (@C9_frame_dropped_unless_open Plain.Editor Plain.host
             (step (StartTranscription (Some "token") true) Scenario.fresh)
             [1; 2; 3; 4]).
    right. vm_compute. discriminate.
Defined.

(** The command "New line." with the cursor at the start of line 3: the
    cursor is set to column 2 of line 3, and the paragraph break ends on
    line 5. *)
Lemma C10_final_cursor_stays_on_line_witness :
  (exists w',
      handleFinalTranscript "New line." Scenario.recording = (Normal tt, w') /\
      effects w' =
      (effects Scenario.recording
       ++ [EditorReplaceRange paragraphBreak {| line := 3; ch := 0 |}
             {| line := 3; ch := 0 |} true;
           EditorSetCursor {| line := 3; ch := 2 |}])%list)
  /\ {| line := 3; ch := 2 |}
     <> SessionSpec.endOfInsert {| line := 3; ch := 0 |} paragraphBreak
  /\ SessionSpec.endOfInsert {| line := 3; ch := 0 |} paragraphBreak
     = {| line := 5; ch := 0 |}.
Proof.
  pose proof (@C10_final_cursor_stays_on_line Plain.Editor Plain.host
                Scenario.recording "New line." (conj eq_refl eq_refl))
    as (Hrun & Hend & _).
  split; [|split].
  - destruct Hrun as (w' & Hrun & Heff & _). exists w'. split; [exact Hrun|exact Heff].
  - apply Hend. reflexivity.
  - reflexivity.
Defined.

(* --------------------------------------------------------------------- *)
(** ** More on the text helpers *)
(* --------------------------------------------------------------------- *)

Module TextMoreFacts.

Import TextSpec TextMoreSpec TextFacts.

Local Open Scope nat_scope.

(** *** Trimming *)

Lemma trimStart_spec (s : string) :
  (exists n, s = spaces n ++ trimStart s) /\ startsWithSpace (trimStart s) = false.
Proof.
  induction s as [|c s [[n Hn] IH]]; simpl.
  - split; [exists 0; reflexivity | reflexivity].
  - destruct (Ascii.eqb_spec c SPACE) as [->|Hc].
    + split; [|exact IH]. exists (S n). simpl. f_equal. exact Hn.
    + split; [exists 0; reflexivity|].
      simpl. now apply Ascii.eqb_neq.
Qed.

Lemma trimEnd_spec (s : string) :
  (exists m, s = trimEnd s ++ spaces m) /\ endsWithSpace (trimEnd s) = false.
Proof.
  induction s as [|c s [[m Hm] IH]]; simpl.
  - split; [exists 0; reflexivity | reflexivity].
  - destruct (trimEnd s) as [|d r] eqn:Htrim.
    + simpl in Hm. destruct (Ascii.eqb_spec c SPACE) as [->|Hc].
      * split; [|reflexivity]. exists (S m). simpl. f_equal. exact Hm.
      * split; [exists m; simpl; f_equal; exact Hm|].
        simpl. now apply Ascii.eqb_neq.
    + split; [exists m; simpl; f_equal; exact Hm|].
      exact IH.
Qed.

(** Trimming the end keeps the first character. *)
Lemma trimEnd_start (s : string) :
  startsWithSpace s = false -> startsWithSpace (trimEnd s) = false.
Proof.
  destruct s as [|c s]; simpl; intros Hc; [reflexivity|].
  destruct (trimEnd s); [rewrite Hc|]; simpl; auto.
Qed.

Lemma trimStart_fixed (s : string) :
  startsWithSpace s = false -> trimStart s = s.
Proof. destruct s as [|c s]; simpl; intros Hc; [reflexivity | now rewrite Hc]. Qed.

Lemma trimEnd_fixed (s : string) :
  endsWithSpace s = false -> trimEnd s = s.
Proof.
  induction s as [|c s IH]; simpl; intros Hs; [reflexivity|].
  destruct s as [|d r].
  - simpl. now rewrite Hs.
  - rewrite (IH Hs). reflexivity.
Qed.

Lemma trimSpaces_trimmed (s : string) :
  startsWithSpace (trimSpaces s) = false /\ endsWithSpace (trimSpaces s) = false.
Proof.
  unfold trimSpaces. split.
  - apply trimEnd_start, trimStart_spec.
  - apply trimEnd_spec.
Qed.

(** *** Sentences *)

Lemma splitTerminated_count (text : string) :
  forall cur,
    List.length (fst (splitTerminated cur text)) = countTerminals text.
Proof.
  induction text as [|c text IH]; intros cur; simpl; [reflexivity|].
  destruct (Sentence_Terminal c).
  - specialize (IH EmptyString).
    destruct (splitTerminated EmptyString text) as [pieces remainder].
    simpl in *. now rewrite IH.
  - apply IH.
Qed.

Lemma splitTerminated_none (text : string) :
  forall cur, noTerminal text = true ->
    splitTerminated cur text = ([], cur ++ text).
Proof.
  induction text as [|c text IH]; intros cur Hnone; simpl.
  - now rewrite append_nil_r.
  - simpl in Hnone. apply andb_true_iff in Hnone as [Hc Hnone].
    apply negb_true_iff in Hc. rewrite Hc.
    rewrite (IH _ Hnone), append_assoc. reflexivity.
Qed.

(** A sentence that holds no terminal is no command. *)
Lemma noTerminal_not_command (s : string) :
  noTerminal s = true -> isNewLineCommand s = false.
Proof.
  intros Hnone. destruct (isNewLineCommand s) eqn:Hcmd; [|reflexivity].
  apply (isNewLineCommand_iff s (or_introl Hnone)) in Hcmd.
  destruct Hcmd as (word & c & -> & Hc & _).
  rewrite (noTerminal_middle word EmptyString c Hc) in Hnone. discriminate.
Qed.

(** *** Spaces only *)

Lemma stripSpaces_append (a b : string) :
  stripSpaces (a ++ b) = stripSpaces a ++ stripSpaces b.
Proof.
  induction a as [|c a IH]; simpl; [reflexivity|].
  destruct (Ascii.eqb c SPACE); simpl; now rewrite IH.
Qed.

Lemma stripSpaces_spaces (n : nat) : stripSpaces (spaces n) = EmptyString.
Proof. induction n as [|n IH]; simpl; [reflexivity | exact IH]. Qed.

Lemma stripSpaces_trimSpaces (s : string) :
  stripSpaces (trimSpaces s) = stripSpaces s.
Proof.
  unfold trimSpaces.
  destruct (trimStart_spec s) as [[n Hn] _].
  destruct (trimEnd_spec (trimStart s)) as [[m Hm] _].
  rewrite Hn at 2. rewrite Hm at 2.
  rewrite !stripSpaces_append, !stripSpaces_spaces, append_nil_r. reflexivity.
Qed.

Lemma stripSpaces_join (l : list string) :
  stripSpaces (String.concat " " l) = flat (map stripSpaces l).
Proof.
  induction l as [|s l IH]; [reflexivity|].
  destruct l as [|s' l].
  - simpl. now rewrite append_nil_r.
  - change (String.concat " " (s :: s' :: l))
      with (s ++ " " ++ String.concat " " (s' :: l)).
    rewrite !stripSpaces_append, IH. reflexivity.
Qed.

Lemma concat_flat (l : list string) : String.concat EmptyString l = flat l.
Proof.
  induction l as [|s l IH]; [reflexivity|].
  destruct l as [|s' l].
  - simpl. now rewrite append_nil_r.
  - change (String.concat EmptyString (s :: s' :: l))
      with (s ++ EmptyString ++ String.concat EmptyString (s' :: l)).
    rewrite IH. reflexivity.
Qed.

Lemma flat_app (l l' : list string) : flat (l ++ l') = flat l ++ flat l'.
Proof.
  induction l as [|s l IH]; simpl; [reflexivity|].
  now rewrite IH, append_assoc.
Qed.

Lemma stripSpaces_flat (l : list string) :
  stripSpaces (flat l) = flat (map stripSpaces l).
Proof.
  induction l as [|s l IH]; simpl; [reflexivity|].
  now rewrite stripSpaces_append, IH.
Qed.

(** The sentences hold the characters of the text that are not spaces, in
    order. *)
Lemma stringToSentences_content (text : string) :
  flat (map stripSpaces (stringToSentences text)) = stripSpaces text.
Proof.
  rewrite stringToSentences_spec.
  pose proof (splitTerminated_partition text EmptyString) as Hpart.
  cbn [append] in Hpart.
  set (pieces := fst (splitTerminated EmptyString text)) in *.
  set (remainder := snd (splitTerminated EmptyString text)) in *.
  rewrite <- Hpart.
  rewrite concat_flat, stripSpaces_append, stripSpaces_flat.
  rewrite map_app, flat_app, map_map.
  rewrite (map_ext _ stripSpaces stripSpaces_trimSpaces).
  f_equal.
  rewrite <- (stripSpaces_trimSpaces remainder).
  destruct (trimSpaces remainder); simpl; [reflexivity|].
  now rewrite append_nil_r.
Qed.

(** *** Case *)

Lemma toLowerCase_idempotent (c : ascii) :
  toLowerCase (toLowerCase c) = toLowerCase c.
Proof. destruct c as [[] [] [] [] [] [] [] []]; reflexivity. Qed.

Lemma terminal_toLowerCase (c : ascii) :
  Sentence_Terminal (toLowerCase c) = Sentence_Terminal c.
Proof. destruct c as [[] [] [] [] [] [] [] []]; reflexivity. Qed.

Lemma matchLiteral_lower (literal : string) :
  forall s,
    matchLiteral literal (lower s) = option_map lower (matchLiteral literal s).
Proof.
  induction literal as [|p literal IH]; intros s.
  - destruct s; reflexivity.
  - destruct s as [|c s]; [reflexivity|].
    simpl. rewrite toLowerCase_idempotent.
    destruct (Ascii.eqb (toLowerCase c) p); [apply IH | reflexivity].
Qed.

Lemma literalThenTerminal_lower (literal s : string) :
  literalThenTerminal literal (lower s) = literalThenTerminal literal s.
Proof.
  unfold literalThenTerminal. rewrite matchLiteral_lower.
  destruct (matchLiteral literal s) as [[|c r]|]; simpl; auto.
  apply terminal_toLowerCase.
Qed.

Lemma endsWithLF_spec (s : string) :
  endsWithLF s = true -> exists body, s = body ++ String LF EmptyString.
Proof.
  induction s as [|c s IH]; simpl; [discriminate|].
  destruct s as [|d r].
  - intros Hc. apply Ascii.eqb_eq in Hc. subst c. exists EmptyString. reflexivity.
  - intros Hs. destruct (IH Hs) as [body Hbody].
    exists (String c body). simpl. now rewrite <- Hbody.
Qed.

End TextMoreFacts.

(** X1. [trimSpaces] takes away spaces at both ends and nothing else: the
    text is some spaces, the trimmed text, and some spaces; the trimmed
    text neither begins nor ends with a space; trimming it again changes
    nothing. *)
Theorem X1_trimSpaces_only_outer_spaces :
  forall text : string,
    (exists n m,
        text = TextMoreSpec.spaces n ++ trimSpaces text ++ TextMoreSpec.spaces m)
    /\ TextMoreSpec.startsWithSpace (trimSpaces text) = false
    /\ TextMoreSpec.endsWithSpace (trimSpaces text) = false
    /\ trimSpaces (trimSpaces text) = trimSpaces text.
Proof.
  intros text.
  destruct (TextMoreFacts.trimSpaces_trimmed text) as [Hstart Hend].
  split; [|split; [exact Hstart|split; [exact Hend|]]].
  - unfold trimSpaces.
    destruct (TextMoreFacts.trimStart_spec text) as [[n Hn] _].
    destruct (TextMoreFacts.trimEnd_spec (trimStart text)) as [[m Hm] _].
    exists n, m. now rewrite <- Hm.
  - unfold trimSpaces at 1.
    rewrite (TextMoreFacts.trimStart_fixed _ Hstart).
    apply TextMoreFacts.trimEnd_fixed, Hend.
Qed.

(** X2. A text that holds no sentence terminal is one sentence, its
    trimmed text, or no sentence at all when it is empty or only spaces;
    the transform of a final transcript then only trims it. *)
Theorem X2_no_terminal_only_trimmed :
  forall text : string,
    TextSpec.noTerminal text = true ->
    stringToSentences text
    = match trimSpaces text with
      | EmptyString => []
      | sentence => [sentence]
      end
    /\ applyTransforms text = trimSpaces text.
Proof.
  intros text Hnone.
  assert (Hsent : stringToSentences text
                  = match trimSpaces text with
                    | EmptyString => []
                    | sentence => [sentence]
                    end).
  { rewrite TextFacts.stringToSentences_spec.
    rewrite (TextMoreFacts.splitTerminated_none text EmptyString Hnone).
    reflexivity. }
  split; [exact Hsent|].
  unfold applyTransforms, transforms, fold_left, newLineTransform.
  rewrite Hsent.
  assert (Htrim : TextSpec.noTerminal (trimSpaces text) = true)
    by (apply TextFacts.trimEnd_noTerminal, TextFacts.trimStart_noTerminal, Hnone).
  destruct (trimSpaces text) as [|c r] eqn:Heq; [reflexivity|].
  cbn [map String.concat].
  now rewrite (TextMoreFacts.noTerminal_not_command _ Htrim).
Qed.

(** A text without a terminal, and an empty one. *)
Lemma X2_no_terminal_only_trimmed_witness :
  applyTransforms "  so far so good " = "so far so good"
  /\ stringToSentences "   " = [].
Proof.
  split.
  - rewrite (proj2 (X2_no_terminal_only_trimmed "  so far so good " eq_refl)).
    reflexivity.
  - rewrite (proj1 (X2_no_terminal_only_trimmed "   " eq_refl)). reflexivity.
Defined.

(** X3. There are as many sentences as the text holds sentence terminals,
    and one more when something other than spaces follows the last
    terminal; no sentence begins or ends with a space. *)
Theorem X3_sentence_count_and_trim :
  forall text : string,
    List.length (stringToSentences text)
    = (TextMoreSpec.countTerminals text
       + match trimSpaces (snd (TextSpec.splitTerminated EmptyString text)) with
         | EmptyString => 0
         | _ => 1
         end)%nat
    /\ forall s, In s (stringToSentences text) ->
                 TextMoreSpec.startsWithSpace s = false /\
                 TextMoreSpec.endsWithSpace s = false.
Proof.
  intros text. rewrite TextFacts.stringToSentences_spec. split.
  - rewrite length_app, length_map, TextMoreFacts.splitTerminated_count.
    destruct (trimSpaces _); reflexivity.
  - intros s Hin. apply in_app_or in Hin as [Hin|Hin].
    + apply in_map_iff in Hin as (p & <- & _).
      apply TextMoreFacts.trimSpaces_trimmed.
    + pose proof (TextMoreFacts.trimSpaces_trimmed
                    (snd (TextSpec.splitTerminated EmptyString text))) as Htrim.
      destruct (trimSpaces _); [contradiction|].
      destruct Hin as [<-|[]]. exact Htrim.
Qed.

(** Two sentences, the second without its terminal. *)
Lemma X3_sentence_count_and_trim_witness :
  List.length (stringToSentences " One. Two ") = 2%nat
  /\ TextMoreSpec.endsWithSpace "Two" = false.
Proof.
  split.
  - rewrite (proj1 (X3_sentence_count_and_trim " One. Two ")). reflexivity.
  - apply (proj2 (X3_sentence_count_and_trim " One. Two ") "Two").
    vm_compute. auto.
Defined.

(** X4. The text inserted for a final transcript is never empty and ends
    in a line feed or a space: it is the transformed text when that ends in
    a line feed, and the transformed text and one space otherwise. *)
Theorem X4_final_insert_ends_in_break_or_space :
  forall text : string,
    exists body c,
      finalInsert text = body ++ String c EmptyString
      /\ ((c = LF /\ finalInsert text = applyTransforms text)
          \/ (c = SPACE /\ body = applyTransforms text
              /\ endsWithLF (applyTransforms text) = false)).
Proof.
  intros text. unfold finalInsert.
  destruct (endsWithLF (applyTransforms text)) eqn:Hlf.
  - destruct (TextMoreFacts.endsWithLF_spec _ Hlf) as [body Hbody].
    exists body, LF. split; [exact Hbody|]. left. auto.
  - exists (applyTransforms text), SPACE. split; [reflexivity|]. right. auto.
Qed.

(** X5. On a transcript none of whose sentences is the voice command, the
    transform changes spaces only: the characters that are not spaces are
    the same, in the same order, before and after. *)
Theorem X5_transform_keeps_content :
  forall text : string,
    Forall (fun s => isNewLineCommand s = false) (stringToSentences text) ->
    TextMoreSpec.stripSpaces (applyTransforms text) = TextMoreSpec.stripSpaces text.
Proof.
  intros text Hnone.
  unfold applyTransforms, transforms, fold_left, newLineTransform.
  assert (Hmap : map (fun s => if isNewLineCommand s then paragraphBreak else s)
                     (stringToSentences text) = stringToSentences text).
  { induction Hnone as [|s l Hs _ IH]; simpl; [reflexivity|].
    now rewrite Hs, IH. }
  rewrite Hmap, TextMoreFacts.stripSpaces_join.
  apply TextMoreFacts.stringToSentences_content.
Qed.

(** Two sentences with spaces to spare. *)
Lemma X5_transform_keeps_content_witness :
  TextMoreSpec.stripSpaces (applyTransforms " Buy  milk.   Call  Ann ")
  = "Buymilk.CallAnn".
Proof.
  rewrite (X5_transform_keeps_content " Buy  milk.   Call  Ann ").
  - reflexivity.
  - assert (Hs : stringToSentences " Buy  milk.   Call  Ann "
                 = ["Buy  milk."; "Call  Ann"]) by (vm_compute; reflexivity).
    rewrite Hs. repeat (apply Forall_cons; [reflexivity|]). apply Forall_nil.
Defined.

(** X6. The test for the voice command ignores case: it gives the same
    answer on a sentence and on the sentence in lower case. *)
Theorem X6_command_test_ignores_case :
  forall sentence : string,
    isNewLineCommand (TextSpec.lower sentence) = isNewLineCommand sentence.
Proof.
  intros sentence. unfold isNewLineCommand.
  now rewrite !TextMoreFacts.literalThenTerminal_lower.
Qed.

(* --------------------------------------------------------------------- *)
(** ** More on the re-chunker *)
(* --------------------------------------------------------------------- *)

Module MicrophoneMoreFacts.

Import Microphone MicrophoneMoreSpec MicrophoneFacts.

Local Open Scope nat_scope.

Lemma frameSamples_value : frameSamples = 1600.
Proof. reflexivity. Qed.

(** One worklet message on a recording microphone, in terms of the
    samples queued. *)
Lemma onmessage_recording (audio_data : list Z) (m : t) :
  audioContext m = Some SAMPLE_RATE ->
  let all := (elements (audioBufferQueue m) ++ audio_data)%list in
  audioContext (fst (onmessage audio_data m)) = Some SAMPLE_RATE /\
  if frameSamples <=? List.length all then
    snd (onmessage audio_data m) = Some (newUint8Array all) /\
    elements (audioBufferQueue (fst (onmessage audio_data m))) = skipn frameSamples all
  else
    snd (onmessage audio_data m) = None /\
    elements (audioBufferQueue (fst (onmessage audio_data m))) = all.
Proof.
  intros Hctx all. unfold onmessage. rewrite Hctx.
  unfold mergeBuffers. rewrite (elements_new audio_data). fold all.
  change (length (newInt16Array all)) with (List.length all).
  destruct (Nat.leb_spec frameSamples (List.length all)) as [Hle|Hlt].
  - rewrite frameSamples_value in Hle.
    destruct (Z.leb_spec (100 * SAMPLE_RATE) (Z.of_nat (List.length all) * 1000))
      as [_|Hz]; [|unfold SAMPLE_RATE in Hz; lia].
    cbn [fst snd audioContext audioBufferQueue]. split; [reflexivity|]. split.
    + reflexivity.
    + apply elements_subarrayFrom.
  - rewrite frameSamples_value in Hlt.
    destruct (Z.leb_spec (100 * SAMPLE_RATE) (Z.of_nat (List.length all) * 1000))
      as [Hz|_]; [unfold SAMPLE_RATE in Hz; lia|].
    cbn [fst snd audioContext audioBufferQueue]. split; [reflexivity|]. split.
    + reflexivity.
    + apply elements_new.
Qed.

(** The samples of the frames handed out by a run, as lists: every frame
    holds at least a frame's worth, and the first frame's worth of each,
    followed by the queue, is what was queued and fed, in order. *)
Lemma feed_conserves (callbacks : list (list Z)) :
  forall m : t,
    audioContext m = Some SAMPLE_RATE ->
    exists held : list (list Z),
      snd (feed callbacks m) = map newUint8Array held /\
      Forall (fun samples => frameSamples <= List.length samples) held /\
      (List.concat (map (firstn frameSamples) held)
       ++ elements (audioBufferQueue (fst (feed callbacks m))))%list
      = (elements (audioBufferQueue m) ++ stream callbacks)%list /\
      audioContext (fst (feed callbacks m)) = Some SAMPLE_RATE.
Proof.
  induction callbacks as [|audio_data callbacks IH]; intros m Hctx.
  - exists []. simpl. rewrite app_nil_r. repeat split; auto.
  - cbn [feed].
    destruct (onmessage_recording audio_data m Hctx) as [Hctx1 Hstep].
    destruct (onmessage audio_data m) as [m1 frame] eqn:Hmsg.
    cbn [fst snd] in *.
    destruct (IH m1 Hctx1) as (held & Hframes & Hsizes & Hsamples & Hctx2).
    destruct (feed callbacks m1) as [m2 frames] eqn:Hfeed.
    cbn [fst snd] in *.
    unfold stream in *. cbn [List.concat].
    destruct (Nat.leb_spec frameSamples
                (List.length (elements (audioBufferQueue m) ++ audio_data)))
      as [Hle|Hlt]; destruct Hstep as [-> Hqueue].
    + exists ((elements (audioBufferQueue m) ++ audio_data)%list :: held).
      split; [simpl; now rewrite Hframes|].
      split; [constructor; assumption|].
      split; [|exact Hctx2].
      cbn [map List.concat].
      rewrite <- app_assoc, Hsamples, Hqueue, app_assoc, firstn_skipn.
      now rewrite <- app_assoc.
    + exists held. split; [exact Hframes|].
      split; [exact Hsizes|]. split; [|exact Hctx2].
      rewrite Hsamples, Hqueue. now rewrite <- app_assoc.
Qed.

(** With blocks of at most a frame's worth, the queue stays below a
    frame's worth and a frame below two. *)
Lemma feed_counts (callbacks : list (list Z)) :
  forall m : t,
    audioContext m = Some SAMPLE_RATE ->
    Forall (fun block => List.length block <= frameSamples) callbacks ->
    List.length (elements (audioBufferQueue m)) < frameSamples ->
    List.length (elements (audioBufferQueue (fst (feed callbacks m))))
    + frameSamples * List.length (snd (feed callbacks m))
    = List.length (elements (audioBufferQueue m)) + List.length (stream callbacks)
    /\ List.length (elements (audioBufferQueue (fst (feed callbacks m)))) < frameSamples
    /\ Forall (fun frame => List.length frame < 2 * (2 * frameSamples))
              (snd (feed callbacks m)).
Proof.
  induction callbacks as [|audio_data callbacks IH]; intros m Hctx Hblocks Hqueue.
  - simpl. split; [lia|]. split; [exact Hqueue | constructor].
  - cbn [feed]. inversion Hblocks as [|? ? Hblock Hblocks']; subst.
    destruct (onmessage_recording audio_data m Hctx) as [Hctx1 Hstep].
    destruct (onmessage audio_data m) as [m1 frame] eqn:Hmsg.
    cbn [fst snd] in *.
    assert (Hall : List.length (elements (audioBufferQueue m) ++ audio_data)
                   = List.length (elements (audioBufferQueue m)) + List.length audio_data)
      by apply length_app.
    assert (Hq1 : List.length (elements (audioBufferQueue m1)) < frameSamples
                  /\ List.length (elements (audioBufferQueue m1))
                     + frameSamples * (match frame with Some _ => 1 | None => 0 end)
                     = List.length (elements (audioBufferQueue m)) + List.length audio_data
                  /\ match frame with
                     | Some f => List.length f < 2 * (2 * frameSamples)
                     | None => True
                     end).
    { destruct (Nat.leb_spec frameSamples
                  (List.length (elements (audioBufferQueue m) ++ audio_data)))
        as [Hle|Hlt]; destruct Hstep as [-> Hq]; rewrite Hq.
      - rewrite length_skipn, newUint8Array_length. lia.
      - lia. }
    destruct Hq1 as (Hq1 & Hsum & Hframe).
    destruct (IH m1 Hctx1 Hblocks' Hq1) as (Hcount & Hbound & Hsizes).
    destruct (feed callbacks m1) as [m2 frames] eqn:Hfeed.
    cbn [fst snd] in *.
    unfold stream in *. cbn [List.concat]. rewrite length_app.
    destruct frame as [f|]; cbn [List.length].
    + split; [lia|]. split; [exact Hbound|]. constructor; assumption.
    + split; [lia|]. split; [exact Hbound | exact Hsizes].
Qed.

(** Once recording is stopped, worklet messages are dropped. *)
Lemma feed_stopped (callbacks : list (list Z)) :
  forall m : t,
    audioContext m = None -> feed callbacks m = (m, []).
Proof.
  induction callbacks as [|audio_data callbacks IH]; intros m Hctx; [reflexivity|].
  cbn [feed]. unfold onmessage. rewrite Hctx. now rewrite (IH m Hctx).
Qed.

End MicrophoneMoreFacts.

(** X7. Whatever the sizes of the worklet blocks, the re-chunker keeps the
    samples in order and loses none: every frame handed out holds at least
    1600 samples, and the first 1600 samples of each frame, one frame
    after the other, followed by the samples left in the queue, are the
    samples that were queued before followed by those of the blocks. *)
Theorem X7_rechunker_keeps_samples_in_order :
  forall (callbacks : list (list Z)) (m : Microphone.t),
    Microphone.audioContext m = Some Microphone.SAMPLE_RATE ->
    exists held : list (list Z),
      snd (Microphone.feed callbacks m) = map Microphone.newUint8Array held /\
      Forall (fun samples => (1600 <= List.length samples)%nat) held /\
      (List.concat (map (firstn 1600) held)
       ++ Microphone.elements
            (Microphone.audioBufferQueue (fst (Microphone.feed callbacks m))))%list
      = (Microphone.elements (Microphone.audioBufferQueue m)
         ++ MicrophoneMoreSpec.stream callbacks)%list.
Proof.
  intros callbacks m Hctx.
  destruct (MicrophoneMoreFacts.feed_conserves callbacks m Hctx)
    as (held & Hframes & Hsizes & Hsamples & _).
  exists held. auto.
Qed.

(** Blocks of 1000, 700 and 50 samples: one frame, 150 samples left. *)
Lemma X7_rechunker_keeps_samples_in_order_witness :
  exists held : list (list Z),
    snd (Microphone.feed [repeat 1%Z 1000; repeat 2%Z 700; repeat 3%Z 50]
           MicrophoneSpec.recording)
    = map Microphone.newUint8Array held /\
    Forall (fun samples => (1600 <= List.length samples)%nat) held /\
    (List.concat (map (firstn 1600) held)
     ++ Microphone.elements
          (Microphone.audioBufferQueue
             (fst (Microphone.feed [repeat 1%Z 1000; repeat 2%Z 700; repeat 3%Z 50]
                     MicrophoneSpec.recording))))%list
    = (Microphone.elements (Microphone.audioBufferQueue MicrophoneSpec.recording)
       ++ MicrophoneMoreSpec.stream [repeat 1%Z 1000; repeat 2%Z 700; repeat 3%Z 50])%list.
Proof.
  apply (X7_rechunker_keeps_samples_in_order
           [repeat 1%Z 1000; repeat 2%Z 700; repeat 3%Z 50] MicrophoneSpec.recording).
  reflexivity.
Defined.

(** X8. When no worklet block holds more than 1600 samples (the worklet
    hands out 128) and fewer than 1600 are queued, the samples queued
    afterwards and 1600 for each frame handed out add up to the samples
    queued before and fed, fewer than 1600 samples stay queued, and every
    frame is shorter than two frames' worth (6400 bytes): after N samples
    from an empty queue there are N / 1600 frames and N mod 1600 samples
    queued. *)
Theorem X8_rechunker_counts :
  forall (callbacks : list (list Z)) (m : Microphone.t),
    Microphone.audioContext m = Some Microphone.SAMPLE_RATE ->
    Forall (fun block => (List.length block <= 1600)%nat) callbacks ->
    (List.length (Microphone.elements (Microphone.audioBufferQueue m)) < 1600)%nat ->
    let queued :=
      List.length
        (Microphone.elements
           (Microphone.audioBufferQueue (fst (Microphone.feed callbacks m)))) in
    let frames := snd (Microphone.feed callbacks m) in
    let fed := (List.length (Microphone.elements (Microphone.audioBufferQueue m))
                + List.length (MicrophoneMoreSpec.stream callbacks))%nat in
    (queued + 1600 * List.length frames = fed)%nat
    /\ (queued < 1600)%nat
    /\ List.length frames = Nat.div fed 1600
    /\ queued = Nat.modulo fed 1600
    /\ Forall (fun frame => (List.length frame < 2 * 3200)%nat) frames.
Proof.
  intros callbacks m Hctx Hblocks Hqueue queued frames fed.
  destruct (MicrophoneMoreFacts.feed_counts callbacks m Hctx Hblocks Hqueue)
    as (Hsum & Hbound & Hsizes).
  change MicrophoneMoreSpec.frameSamples with 1600%nat in *.
  fold queued in Hsum, Hbound. fold frames in Hsum, Hsizes. fold fed in Hsum.
  assert (Hdiv : (fed = 1600 * List.length frames + queued)%nat) by lia.
  split; [exact Hsum|]. split; [exact Hbound|].
  split; [|split].
  - apply (Nat.div_unique fed 1600 (List.length frames) queued); assumption.
  - apply (Nat.mod_unique fed 1600 (List.length frames) queued); assumption.
  - apply (Forall_impl _ (fun frame Hframe => Hframe) Hsizes).
Qed.

(** Thirty blocks of 128 samples: 3840 samples, two frames, 640 left. *)
Lemma X8_rechunker_counts_witness :
  List.length (snd (Microphone.feed (repeat (repeat 0%Z 128) 30) MicrophoneSpec.recording))
  = 2%nat
  /\ List.length
       (Microphone.elements
          (Microphone.audioBufferQueue
             (fst (Microphone.feed (repeat (repeat 0%Z 128) 30) MicrophoneSpec.recording))))
     = 640%nat.
Proof.
  destruct (X8_rechunker_counts (repeat (repeat 0%Z 128) 30) MicrophoneSpec.recording)
    as (_ & _ & Hframes & Hqueued & _).
  - reflexivity.
  - apply Forall_forall. intros block Hblock.
    apply repeat_spec in Hblock. subst block. rewrite repeat_length. lia.
  - vm_compute. lia.
  - split; [rewrite Hframes | rewrite Hqueued]; reflexivity.
Defined.

(** X9. After [stopRecording] the queue is empty and every worklet message
    that still arrives is dropped: no frame is handed out and the queue
    stays empty. *)
Theorem X9_messages_after_stop_are_dropped :
  forall (callbacks : list (list Z)) (m : Microphone.t),
    Microphone.feed callbacks (Microphone.stopRecording m)
    = (Microphone.stopRecording m, [])
    /\ Microphone.elements (Microphone.audioBufferQueue (Microphone.stopRecording m)) = [].
Proof.
  intros callbacks m. split; [|reflexivity].
  apply MicrophoneMoreFacts.feed_stopped. reflexivity.
Qed.

(* --------------------------------------------------------------------- *)
(** ** More on the rewrite and the transcriber *)
(* --------------------------------------------------------------------- *)

(** X10. The rewrite never turns a text into the empty text: an empty
    [response] counts as a failure, so what [postProcessTranscript] resolves
    to, and what the resumed post-processing writes back, is empty only if
    the text passed in was. *)
Theorem X10_rewrite_never_blanks :
  forall (settings : DictaphoneSettings) (apiKey : string)
         (network : Request -> Reply) (text : string)
         (p : Suspended) (reply : Reply),
    (fst (postProcessTranscript settings apiKey network text) = EmptyString ->
     text = EmptyString)
    /\ (SessionSpec.resumedText p reply = EmptyString ->
        pendingText p = EmptyString).
Proof.
  intros settings apiKey network text p reply. split.
  - unfold postProcessTranscript.
    destruct (requestFor settings apiKey text) as [r|]; cbn [fst]; [|auto].
    destruct (RewriteFacts.settle_cases text (network r))
      as [-> | (response & _ & Hne & ->)]; [auto|].
    intros Hempty. contradiction.
  - unfold SessionSpec.resumedText.
    destruct (pendingRequest p); [|auto].
    destruct (RewriteFacts.settle_cases (pendingText p) reply)
      as [-> | (response & _ & Hne & ->)]; [auto|].
    intros Hempty. contradiction.
Qed.

(** An empty text stays empty, whatever the service replies. *)
Lemma X10_rewrite_never_blanks_witness :
  fst (postProcessTranscript Plain.defaultSettings "key"
         (fun _ => Parsed (Some EmptyString)) "kept") <> EmptyString.
Proof.
  intros Hempty.
  pose proof (proj1 (X10_rewrite_never_blanks Plain.defaultSettings "key"
                       (fun _ => Parsed (Some EmptyString)) "kept"
                       {| pendingText := "kept"; pendingRequest := None |}
                       RequestRejected) Hempty) as Habsurd.
  discriminate Habsurd.
Defined.

Ltac more_unfold :=
  unfold startTranscription, handleDeviceChange, onDisconnect.

Section SessionMore.

Context {E : Type} `{EditorHost E}.

Import SessionMoreSpec.

(** *** Helpers *)

Lemma tryCatch_emit_normal (body : JS E unit) (e : Effect) (w : World E) :
  fst (tryCatch body (fun _ => emit e) w) = Normal tt.
Proof. unfold tryCatch. destruct (body w) as [[[]|x] w1]; reflexivity. Qed.

Lemma filter_snoc_false {A} (f : A -> bool) (l : list A) (a : A) :
  f a = false -> filter f (l ++ [a]) = filter f l.
Proof. intros Hf. rewrite filter_app. simpl. rewrite Hf. apply app_nil_r. Qed.

(** The teardown on a socket that is still connecting: [send] throws
    before the socket is closed or released. *)
Lemma teardown_connecting (w : World E) :
  websocket w = Some CONNECTING ->
  (modify (setIsTranscribing false) ;;
   microphoneStopRecording ;;
   ws <- gets websocket ;;
   match ws with
   | Some CONNECTING | Some OPEN =>
       socketSend (SocketSendText terminateSession) ;;
       socketClose ;;
       modify (setWebsocket None)
   | _ => ret tt
   end)%js w
  = (Throw InvalidStateError,
     setEffects (effects w ++ [MicStopRecording])
       (setMicrophone (Microphone.stopRecording (microphone w))
          (setIsTranscribing false w))).
Proof. intros Hws. js_run. reflexivity. Qed.

Ltac socket_split :=
  repeat match goal with
    | |- keeps _ (ret _) => apply keeps_ret
    | |- keeps _ (throw _) => apply keeps_throw
    | |- keeps _ (gets _) => apply keeps_gets
    | |- keeps _ (async _) => apply keeps_async
    | |- keeps _ (bind _ _) => apply keeps_bind; [|intro]
    | |- keeps _ (tryCatch _ _) => apply keeps_tryCatch; [|intro]
    | |- keeps _ (if ?b then _ else _) => destruct b
    | |- keeps _ (match ?x with _ => _ end) => destruct x
    end.

Ltac socket_write :=
  match goal with
  | |- keeps _ (modify _) => apply keeps_modify
  | |- keeps _ (emit _) => apply keeps_modify
  end;
  intros ? [? ?]; split; js_cbn;
  [assumption | rewrite ?filter_snoc_false by reflexivity; assumption].

Lemma editorGetLine_socket ws (log : list Effect) (n : Z) :
  keeps (@socketWith E ws log) (editorGetLine n).
Proof.
  intros w Hw. unfold editorGetLine. destruct (getLine n (editor w)); exact Hw.
Qed.

Lemma collectLines_socket ws (log : list Effect) (count : nat) :
  forall i, keeps (@socketWith E ws log) (collectLines i count).
Proof.
  induction count as [|count IH]; intros i; cbn [collectLines]; socket_split;
    auto using editorGetLine_socket.
Qed.

(** The teardown on a socket that is not open writes nothing to it and
    keeps the reference. *)
Lemma teardown_socket ws (log : list Effect) :
  ws <> Some OPEN ->
  keeps (@socketWith E ws log)
    (modify (setIsTranscribing false) ;;
     microphoneStopRecording ;;
     ws <- gets websocket ;;
     match ws with
     | Some CONNECTING | Some OPEN =>
         socketSend (SocketSendText terminateSession) ;;
         socketClose ;;
         modify (setWebsocket None)
     | _ => ret tt
     end)%js.
Proof.
  intros Hquiet w [Hws Hlog]. unfold socketWith.
  destruct ws as [[]|]; try congruence; js_run;
    (split; [reflexivity|]);
    now rewrite filter_snoc_false by reflexivity.
Qed.

Lemma immediate_stop_socket ws (log : list Effect) :
  ws <> Some OPEN ->
  keeps (@socketWith E ws log) (stopTranscriptionWith (ret tt) true).
Proof.
  intros Hquiet w Hw. unfold stopTranscriptionWith.
  destruct (isTranscribing w) eqn:Hrec.
  - unfold bind at 1, gets at 1. rewrite Hrec. cbn [negb].
    unfold bind at 1, modify at 1.
    apply (teardown_socket ws log Hquiet (setActiveEditor false w)). exact Hw.
  - unfold bind, gets. rewrite Hrec. exact Hw.
Qed.

Lemma runPostProcess_socket ws (log : list Effect) :
  ws <> Some OPEN ->
  keeps (@socketWith E ws log) runPostProcess.
Proof.
  intros Hquiet.
  unfold runPostProcess, callPostProcessTranscript, finishPostProcess,
    dispatchStateEffect, checkEditor.
  socket_split; try (solve [socket_write]);
    auto using collectLines_socket, immediate_stop_socket.
Qed.

(** [stopTranscription] on a session that is transcribing: the branch on
    [immediate], then the teardown. *)
Lemma stopTranscription_transcribing (w : World E) (immediate : bool) :
  isTranscribing w = true ->
  stopTranscription immediate w
  = (modify (setIsTranscribing false) ;;
     microphoneStopRecording ;;
     ws <- gets websocket ;;
     match ws with
     | Some CONNECTING | Some OPEN =>
         socketSend (SocketSendText terminateSession) ;;
         socketClose ;;
         modify (setWebsocket None)
     | _ => ret tt
     end)%js
      (if immediate then setActiveEditor false w else snd (runPostProcess w)).
Proof.
  intros Hrec. unfold stopTranscription, stopTranscriptionWith.
  unfold bind at 1, gets at 1. rewrite Hrec. cbn [negb].
  unfold bind at 1. destruct immediate; cbn [negb].
  - reflexivity.
  - destruct (runPostProcess w) as [c w1] eqn:Hrun.
    pose proof (runPostProcess_normal w) as Hc. rewrite Hrun in Hc.
    simpl in Hc. subst c. reflexivity.
Qed.

Lemma stopTranscription_socket ws (log : list Effect) (immediate : bool) :
  ws <> Some OPEN ->
  keeps (@socketWith E ws log) (stopTranscription immediate).
Proof.
  intros Hquiet w Hw.
  destruct (isTranscribing w) eqn:Hrec.
  - rewrite (stopTranscription_transcribing w immediate Hrec).
    apply (teardown_socket ws log Hquiet).
    destruct immediate; [exact Hw|].
    apply (runPostProcess_socket ws log Hquiet). exact Hw.
  - rewrite stopTranscription_idle by exact Hrec. exact Hw.
Qed.

(** The teardown leaves the editor, the hold on it and the range alone. *)
Lemma teardown_frame (w : World E) :
  let w' := snd ((modify (setIsTranscribing false) ;;
                  microphoneStopRecording ;;
                  ws <- gets websocket ;;
                  match ws with
                  | Some CONNECTING | Some OPEN =>
                      socketSend (SocketSendText terminateSession) ;;
                      socketClose ;;
                      modify (setWebsocket None)
                  | _ => ret tt
                  end)%js w) in
  activeEditor w' = activeEditor w /\ editor w' = editor w
  /\ transcribedLines w' = transcribedLines w /\ suspended w' = suspended w
  /\ isTranscribing w' = false
  /\ filter touchesEditor (effects w') = filter touchesEditor (effects w).
Proof.
  destruct (websocket w) as [[]|] eqn:Hws; js_run;
    rewrite ?filter_app; simpl; rewrite ?app_nil_r; repeat split.
Qed.

Lemma handleFinalTranscript_live (w : World E) (text : string) :
  SessionSpec.live w ->
  let start := getCursor SideFrom (editor w) in
  let stop := getCursor SideTo (editor w) in
  let insert := finalInsert text in
  let end_ := {| line := line start;
                 ch := (ch start + Z.of_nat (String.length insert))%Z |} in
  let written := setCursor end_ (replaceRange insert start stop (editor w)) in
  handleFinalTranscript text w =
  (Normal tt,
   setTranscribedLines
     (widen (transcribedLines w) (line (getCursor SideFrom written)))
     (setEffects (effects w ++ [EditorReplaceRange insert start stop true;
                                EditorSetCursor end_])
        (setEditor written w))).
Proof.
  intros Hlive start stop insert end_ written.
  unfold handleFinalTranscript, bind at 1.
  rewrite (checkEditor_live w Hlive).
  destruct Hlive as [_ Hattached].
  js_unfold. js_cbn. rewrite Hattached.
  unfold setTranscribedLines, setEffects, setEditor. js_cbn.
  rewrite <- app_assoc. reflexivity.
Qed.

(** *** Stopping *)

(** X11. [stopTranscription] does nothing on a session that is not
    transcribing, and after any call of it a second call does nothing, with
    either value of [immediate] in either call. *)
Theorem X11_stop_twice_is_stop_once :
  forall (w : World E) (first second : bool),
    (isTranscribing w = false -> stopTranscription first w = (Normal tt, w))
    /\ stopTranscription second (snd (stopTranscription first w))
       = (Normal tt, snd (stopTranscription first w)).
Proof.
  intros w first second. split.
  - apply stopTranscription_idle.
  - apply stopTranscription_twice.
Qed.

(** X12. Whatever events reach a transcriber from its construction on,
    the range of transcribed lines has its start at or before its end. *)
Theorem X12_range_always_in_order :
  forall (evs : list (Event E)) (s : DictaphoneSettings) (e : E),
    (from (transcribedLines (run evs (initialWorld s e)))
     <= to (transcribedLines (run evs (initialWorld s e))))%Z.
Proof. intros evs s e. apply (reachable_ordered evs s e). Qed.

Lemma stopTranscription_immediate_quiet (w : World E) :
  filter touchesEditor (effects (snd (stopTranscription true w)))
  = filter touchesEditor (effects w).
Proof.
  destruct (isTranscribing w) eqn:Hrec;
    destruct (websocket w) as [[]|] eqn:Hws; js_run;
    rewrite ?filter_app; simpl; rewrite ?app_nil_r; reflexivity.
Qed.

(** X13. A partial or final transcript that finds the editor released or
    detached writes nothing: the editor, its dictation state and the range
    of transcribed lines stay as they were, no effect reaches the editor,
    and the session is left not transcribing. *)
Theorem X13_failed_check_writes_nothing :
  forall (w : World E) (text : string),
    ~ SessionSpec.live w ->
    forall handler : JS E unit,
      handler = handlePartialTranscript text \/ handler = handleFinalTranscript text ->
      editor (snd (handler w)) = editor w
      /\ transcribedLines (snd (handler w)) = transcribedLines w
      /\ isTranscribing (snd (handler w)) = false
      /\ filter touchesEditor (effects (snd (handler w)))
         = filter touchesEditor (effects w).
Proof.
  intros w text Hdead handler Hhandler.
  destruct (transcript_handlers_dead w text Hdead) as [Hpartial Hfinal].
  assert (Hstop : handler w = stopTranscription true w)
    by (destruct Hhandler as [-> | ->]; assumption).
  rewrite Hstop. split; [|split; [|split]].
  - apply stopTranscription_immediate_editor.
  - apply stopTranscription_immediate_lines.
  - apply stopTranscription_makes_idle.
  - apply stopTranscription_immediate_quiet.
Qed.

(** X14. The message handler of the socket never throws, and a message
    whose text is empty or whose type is neither "PartialTranscript" nor
    "FinalTranscript" changes nothing. *)
Theorem X14_onmessage_never_throws :
  forall (w : World E) (message_type text : string),
    fst (onmessage message_type text w) = Normal tt
    /\ (text = EmptyString -> onmessage message_type text w = (Normal tt, w))
    /\ (message_type <> "PartialTranscript" -> message_type <> "FinalTranscript" ->
        onmessage message_type text w = (Normal tt, w)).
Proof.
  intros w message_type text. split; [apply tryCatch_emit_normal|]. split.
  - intros ->. reflexivity.
  - intros Hpartial Hfinal. unfold onmessage, tryCatch.
    apply String.eqb_neq in Hpartial, Hfinal. rewrite Hpartial, Hfinal.
    destruct (truthy text); reflexivity.
Qed.

(** *** Starting *)

(** X15. [startTranscription] does nothing on a session that is already
    transcribing.  On one that is not: when no token can be had, the error
    is logged twice and nothing else changes (no socket, not transcribing);
    when the token and the microphone are had, a connecting socket is
    created, the session is transcribing on the editor, the start is
    signalled and the capture starts, and the range of transcribed lines is
    left as it was. *)
Theorem X15_start_guard_and_outcomes :
  forall (w : World E) (token : option string) (deviceAcquired : bool),
    (isTranscribing w = true ->
     startTranscription token deviceAcquired w = (Normal tt, w))
    /\ (isTranscribing w = false ->
        startTranscription None deviceAcquired w
        = (Normal tt, setEffects (effects w ++ [ConsoleError; ConsoleError]) w))
    /\ (isTranscribing w = false ->
        forall t : string,
        exists w',
          startTranscription (Some t) true w = (Normal tt, w') /\
          isTranscribing w' = true /\ websocket w' = Some CONNECTING /\
          activeEditor w' = true /\
          editor w' = cmDispatch transcriptionStart (editor w) /\
          microphone w' = Microphone.startRecording (microphone w) /\
          transcribedLines w' = transcribedLines w /\
          effects w' = (effects w ++ [SocketCreated; CmDispatch transcriptionStart;
                                      MicStartRecording])%list).
Proof.
  intros w token deviceAcquired. split; [|split].
  - intros Hrec. more_unfold. js_run. reflexivity.
  - intros Hrec. more_unfold. js_run.
    unfold setEffects. js_cbn. rewrite <- app_assoc. reflexivity.
  - intros Hrec t. more_unfold. js_run.
    eexists. split; [reflexivity|]. js_cbn.
    rewrite <- !app_assoc. repeat split.
Qed.

(** X16. A stop that comes while the socket is still connecting throws
    from [send]: the session is left not transcribing and the audio capture
    is stopped, but the termination message is not sent, the socket is not
    closed, and the transcriber keeps its reference to the connecting
    socket. *)
Theorem X16_stop_while_connecting_throws :
  forall (w : World E) (immediate : bool),
    isTranscribing w = true ->
    websocket w = Some CONNECTING ->
    fst (stopTranscription immediate w) = Throw InvalidStateError
    /\ isTranscribing (snd (stopTranscription immediate w)) = false
    /\ Microphone.audioContext (microphone (snd (stopTranscription immediate w))) = None
    /\ websocket (snd (stopTranscription immediate w)) = Some CONNECTING
    /\ filter touchesSocket (effects (snd (stopTranscription immediate w)))
       = filter touchesSocket (effects w).
Proof.
  intros w immediate Hrec Hws.
  pose proof (stopTranscription_transcribing w immediate Hrec) as Hstop.
  set (w1 := if immediate then setActiveEditor false w else snd (runPostProcess w))
    in Hstop.
  assert (Hw1 : socketWith (Some CONNECTING) (filter touchesSocket (effects w)) w1).
  { subst w1. destruct immediate.
    - split; [exact Hws | reflexivity].
    - apply runPostProcess_socket; [discriminate|].
      split; [exact Hws | reflexivity]. }
  destruct Hw1 as [Hws1 Hlog1].
  rewrite (teardown_connecting w1 Hws1) in Hstop. rewrite Hstop. js_cbn.
  split; [reflexivity|]. split; [reflexivity|]. split; [reflexivity|].
  split; [exact Hws1|].
  rewrite filter_snoc_false by reflexivity. exact Hlog1.
Qed.

(** *** The rewrite and what follows it *)

(** X17. When a suspended post-processing resumes it releases the editor
    and empties the range, whatever has happened since the stop; so the
    next partial or final transcript, also of a session started in the
    meantime, fails the liveness check: it writes nothing and leaves the
    session not transcribing. *)
Theorem X17_settled_rewrite_ends_any_session :
  forall (w : World E) (p : Suspended) (reply : Reply) (text : string),
    let settled := snd (resumePostProcess p reply w) in
    activeEditor settled = false
    /\ transcribedLines settled = emptyRange
    /\ forall handler : JS E unit,
        handler = handlePartialTranscript text \/ handler = handleFinalTranscript text ->
        isTranscribing (snd (handler settled)) = false
        /\ editor (snd (handler settled)) = editor settled
        /\ transcribedLines (snd (handler settled)) = emptyRange.
Proof.
  intros w p reply text settled.
  destruct (resumePostProcess_spec p reply w) as (w' & Hrun & Hlines & Hheld & _).
  assert (Hsettled : settled = w') by (subst settled; now rewrite Hrun).
  rewrite Hsettled. split; [exact Hheld|]. split; [exact Hlines|].
  intros handler Hhandler.
  assert (Hdead : ~ SessionSpec.live w')
    by (intros [Hlive _]; rewrite Hheld in Hlive; discriminate).
  destruct (transcript_handlers_dead w' text Hdead) as [Hpartial Hfinal].
  assert (Hstop : handler w' = stopTranscription true w')
    by (destruct Hhandler as [-> | ->]; assumption).
  rewrite Hstop. split; [|split].
  - apply stopTranscription_makes_idle.
  - apply stopTranscription_immediate_editor.
  - rewrite stopTranscription_immediate_lines. exact Hlines.
Qed.

(** X18. On a change of the media devices the microphone stops recording,
    and that is all: [stopRecording] has cleared the disconnect callback
    before [handleDeviceChange] would call it, so no notification is played
    and the transcriber is not stopped; a session that was transcribing
    still is, with its socket as it was. *)
Theorem X18_device_change_never_notifies :
  forall w : World E,
    handleDeviceChange w
    = (Normal tt,
       setEffects (effects w ++ [MicStopRecording])
         (setMicrophone (Microphone.stopRecording (microphone w)) w))
    /\ isTranscribing (snd (handle DeviceChange w)) = isTranscribing w
    /\ websocket (snd (handle DeviceChange w)) = websocket w
    /\ Microphone.audioContext (microphone (snd (handle DeviceChange w))) = None
    /\ filter (fun e => match e with DisconnectNotification => true | _ => false end)
         (effects (snd (handle DeviceChange w)))
       = filter (fun e => match e with DisconnectNotification => true | _ => false end)
           (effects w).
Proof.
  intros w.
  assert (Hchange : handleDeviceChange w
                    = (Normal tt,
                       setEffects (effects w ++ [MicStopRecording])
                         (setMicrophone (Microphone.stopRecording (microphone w)) w)))
    by (more_unfold; js_run; reflexivity).
  split; [exact Hchange|].
  assert (Hhandle : handle DeviceChange w
                    = match Microphone.audioContext (microphone w) with
                      | Some _ => handleDeviceChange w
                      | None => (Normal tt, w)
                      end).
  { unfold handle, bind, gets.
    destruct (Microphone.audioContext (microphone w)); reflexivity. }
  rewrite Hhandle.
  destruct (Microphone.audioContext (microphone w)) eqn:Hctx.
  - rewrite Hchange. js_cbn. repeat split.
    now rewrite filter_snoc_false by reflexivity.
  - cbn [snd]. repeat split. exact Hctx.
Qed.

(** *** Audio on its way to the socket *)

Lemma step_worklet (audio_data : list Z) (w : World E) :
  isTranscribing w = true -> websocket w = Some OPEN -> suspended w = [] ->
  let w' := step (WorkletMessage audio_data) w in
  isTranscribing w' = true /\ websocket w' = Some OPEN /\ suspended w' = []
  /\ microphone w' = fst (Microphone.onmessage audio_data (microphone w))
  /\ effects w'
     = (effects w
        ++ match snd (Microphone.onmessage audio_data (microphone w)) with
           | Some frame => [SocketSendAudio frame]
           | None => []
           end)%list.
Proof.
  intros Hrec Hws Hs.
  assert (Hstep : step (WorkletMessage audio_data) w
                  = match Microphone.onmessage audio_data (microphone w) with
                    | (m', Some frame) =>
                        setSuspended []
                          (setEffects (effects w ++ [SocketSendAudio frame])
                             (setMicrophone m' w))
                    | (m', None) => setSuspended [] (setMicrophone m' w)
                    end).
  { unfold step, handle. js_unfold. cbn beta.
    destruct (Microphone.onmessage audio_data (microphone w)) as [m' [frame|]];
      repeat (progress js_cbn || rewrite Hrec || rewrite Hws);
      now rewrite drainMicrotasks_idle by exact Hs. }
  intros w'. subst w'. rewrite Hstep.
  destruct (Microphone.onmessage audio_data (microphone w)) as [m' [frame|]];
    js_cbn; rewrite ?app_nil_r; repeat split; assumption.
Qed.

(** X19. While the session is transcribing on an open socket, every frame
    the microphone hands out is written to the socket once, in the order
    the frames are cut, and nothing else is written. *)
Theorem X19_frames_reach_socket_in_order :
  forall (blocks : list (list Z)) (w : World E),
    isTranscribing w = true -> websocket w = Some OPEN -> suspended w = [] ->
    effects (run (map WorkletMessage blocks) w)
    = (effects w ++ map SocketSendAudio (snd (Microphone.feed blocks (microphone w))))%list
    /\ microphone (run (map WorkletMessage blocks) w)
       = fst (Microphone.feed blocks (microphone w)).
Proof.
  induction blocks as [|audio_data blocks IH]; intros w Hrec Hws Hs.
  - simpl. now rewrite app_nil_r.
  - cbn [map run fold_left Microphone.feed].
    destruct (step_worklet audio_data w Hrec Hws Hs)
      as (Hrec' & Hws' & Hs' & Hmic & Heff).
    destruct (IH _ Hrec' Hws' Hs') as [Hrun Hmic'].
    change (fold_left (fun w0 ev => step ev w0) (map WorkletMessage blocks)
              (step (WorkletMessage audio_data) w))
      with (run (map WorkletMessage blocks) (step (WorkletMessage audio_data) w)).
    rewrite Hrun, Hmic', Heff, Hmic.
    destruct (Microphone.onmessage audio_data (microphone w)) as [m1 frame].
    cbn [fst snd].
    destruct (Microphone.feed blocks m1) as [m2 frames].
    cbn [fst snd]. split; [|reflexivity].
    rewrite <- app_assoc. destruct frame; reflexivity.
Qed.

(** *** Transcripts and the state of the session *)

(** X22. A stop of a session in which nothing has been dictated signals
    the end of transcription but keeps the hold on the editor.  A partial
    transcript that arrives after it is therefore still written at the
    cursor, and starts a new range of transcribed lines, though the session
    is no longer transcribing. *)
Theorem X22_stop_with_nothing_dictated_keeps_editor :
  forall w : World E,
    isTranscribing w = true -> SessionSpec.live w ->
    from (transcribedLines w) = (-1)%Z ->
    let stopped := snd (stopTranscription false w) in
    isTranscribing stopped = false
    /\ activeEditor stopped = true
    /\ editor stopped = cmDispatch transcriptionEnd (editor w)
    /\ transcribedLines stopped = emptyRange
    /\ (isConnected (editor stopped) = true ->
        forall text : string,
          let start := getCursor SideFrom (editor stopped) in
          let stop := getCursor SideTo (editor stopped) in
          let end_ := {| line := line start;
                         ch := (ch start + Z.of_nat (String.length text))%Z |} in
          let late := snd (handlePartialTranscript text stopped) in
          isTranscribing late = false
          /\ transcribedLines late = {| from := line start; to := line start |}
          /\ effects late
             = (effects stopped ++ [EditorReplaceRange text start stop true;
                                    EditorSetSelection start end_])%list).
Proof.
  intros w Hrec Hlive Hfrom stopped.
  assert (Hstopped : isTranscribing stopped = false
                     /\ activeEditor stopped = true
                     /\ editor stopped = cmDispatch transcriptionEnd (editor w)
                     /\ transcribedLines stopped = emptyRange).
  { subst stopped. rewrite (stopTranscription_transcribing w false Hrec).
    rewrite (runPostProcess_nothing w Hlive Hfrom). cbn [snd].
    destruct (teardown_frame
                (setEffects (effects w ++ [CmDispatch transcriptionEnd])
                   (setEditor (cmDispatch transcriptionEnd (editor w))
                      (setTranscribedLines emptyRange w))))
      as (Hheld & Hed & Hlines & _ & Hidle & _).
    rewrite Hheld, Hed, Hlines, Hidle. js_cbn.
    destruct Hlive as [Hheld' _]. repeat split. exact Hheld'. }
  destruct Hstopped as (Hidle & Hheld & Hed & Hlines).
  split; [exact Hidle|]. split; [exact Hheld|]. split; [exact Hed|].
  split; [exact Hlines|].
  intros Hattached text start stop end_ late. subst late.
  rewrite (handlePartialTranscript_live stopped text (conj Hheld Hattached)).
  js_cbn. rewrite Hlines. repeat split. exact Hidle.
Qed.

(** X23. On a live editor the transcript handlers do not look at whether
    the session is transcribing: with the flag set either way they write
    the same text at the same place and widen the range alike. *)
Theorem X23_transcripts_do_not_consult_flag :
  forall (w : World E) (text : string) (flag : bool),
    SessionSpec.live w ->
    handlePartialTranscript text (setIsTranscribing flag w)
    = (fst (handlePartialTranscript text w),
       setIsTranscribing flag (snd (handlePartialTranscript text w)))
    /\ handleFinalTranscript text (setIsTranscribing flag w)
       = (fst (handleFinalTranscript text w),
          setIsTranscribing flag (snd (handleFinalTranscript text w))).
Proof.
  intros w text flag Hlive.
  assert (Hlive' : SessionSpec.live (setIsTranscribing flag w)) by exact Hlive.
  split.
  - rewrite (handlePartialTranscript_live _ text Hlive').
    rewrite (handlePartialTranscript_live _ text Hlive). reflexivity.
  - rewrite (handleFinalTranscript_live _ text Hlive').
    rewrite (handleFinalTranscript_live _ text Hlive). reflexivity.
Qed.

(** X24. When the socket is closed from the other side the session is
    stopped without a write to the socket: no termination message, no
    [close], and the transcriber keeps its reference to the closed
    socket. *)
Theorem X24_closed_socket_is_not_written :
  forall w : World E,
    let closed := snd (handle SocketClosed w) in
    isTranscribing closed = false
    /\ websocket closed = match websocket w with
                          | Some _ => Some CLOSED
                          | None => None
                          end
    /\ filter touchesSocket (effects closed) = filter touchesSocket (effects w).
Proof.
  intros w closed. subst closed.
  set (ws := match websocket w with Some _ => Some CLOSED | None => None end).
  set (w0 := match websocket w with
             | Some _ => setWebsocket (Some CLOSED) w
             | None => w
             end).
  assert (Hhandle : handle SocketClosed w = stopTranscription false w0)
    by reflexivity.
  rewrite Hhandle. split; [apply stopTranscription_makes_idle|].
  apply (stopTranscription_socket ws (filter touchesSocket (effects w)) false).
  - subst ws. destruct (websocket w); discriminate.
  - subst ws w0. destruct (websocket w) eqn:Hws; split; auto.
Qed.

(** *** Post-processing when lines are gone *)

(** [runPostProcess] when a transcribed line cannot be read. *)
Lemma runPostProcess_unreadable (w : World E) :
  SessionSpec.live w ->
  from (transcribedLines w) <> (-1)%Z ->
  SessionSpec.transcribedText w = None ->
  runPostProcess w
  = (Normal tt,
     setActiveEditor false
       (setEffects (effects w ++ [CmDispatch postprocessStart; ConsoleError;
                                  CmDispatch transcriptionEnd])
          (setEditor (cmDispatch transcriptionEnd
                        (cmDispatch postprocessStart (editor w)))
             (setTranscribedLines emptyRange w)))).
Proof.
  intros Hlive Hfrom Htext.
  unfold runPostProcess, async. f_equal.
  unfold bind at 1. rewrite (checkEditor_live w Hlive).
  destruct Hlive as [Hheld Hattached].
  unfold bind at 1, gets at 1. cbn [negb orb].
  destruct (Z.eqb_spec (from (transcribedLines w)) (-1)); [contradiction|].
  unfold bind at 1, tryCatch, bind at 1.
  unfold dispatchStateEffect at 1. js_run.
  rewrite collectLines_spec. js_cbn.
  unfold SessionSpec.transcribedText in Htext.
  destruct (SessionSpec.linesOf _ _ _) as [ls|]; [discriminate|].
  js_run. rewrite <- !app_assoc. reflexivity.
Qed.

(** X20. A stop that is not immediate, on a live editor and an open
    socket, when one of the transcribed lines can no longer be read: the
    start of post-processing is signalled, the error is logged, the range
    is emptied and the end is signalled at once; no rewrite request is
    issued, nothing stays suspended, and the teardown follows. *)
Theorem X20_unreadable_lines_skip_rewrite :
  forall w : World E,
    isTranscribing w = true -> SessionSpec.live w ->
    from (transcribedLines w) <> (-1)%Z ->
    SessionSpec.transcribedText w = None ->
    websocket w = Some OPEN ->
    exists w',
      stopTranscription false w = (Normal tt, w') /\
      effects w' = (effects w
                    ++ [CmDispatch postprocessStart; ConsoleError;
                        CmDispatch transcriptionEnd]
                    ++ SessionSpec.teardown)%list /\
      suspended w' = suspended w /\
      transcribedLines w' = emptyRange /\
      activeEditor w' = false /\ isTranscribing w' = false.
Proof.
  intros w Hrec Hlive Hfrom Htext Hws.
  rewrite (stopTranscription_transcribing w false Hrec).
  rewrite (runPostProcess_unreadable w Hlive Hfrom Htext). cbn [snd].
  rewrite teardown_open by exact Hws.
  eexists. split; [reflexivity|]. js_cbn.
  repeat split. now rewrite <- app_assoc.
Qed.

(** *** Stopping with the rewrite switched off *)

(** A suspended call that waits for no request, resumed on a held editor
    whose last transcribed line can be read. *)
Lemma resumePostProcess_passthrough (p : Suspended) (reply : Reply)
    (w : World E) (l : string) :
  pendingRequest p = None ->
  activeEditor w = true ->
  getLine (to (transcribedLines w)) (editor w) = Some l ->
  let start := {| line := from (transcribedLines w); ch := 0 |} in
  let stop := {| line := to (transcribedLines w); ch := Z.of_nat (String.length l) |} in
  resumePostProcess p reply w
  = (Normal tt,
     setActiveEditor false
       (setEffects (effects w
                    ++ [EditorReplaceRange (pendingText p) start stop
                          (isConnected (editor w));
                        CmDispatch transcriptionEnd])
          (setEditor (cmDispatch transcriptionEnd
                        (replaceRange (pendingText p) start stop (editor w)))
             (setTranscribedLines emptyRange w)))).
Proof.
  intros Hp Hheld Hline start stop.
  unfold resumePostProcess, async. rewrite Hp.
  js_run. rewrite Hline. js_run.
  rewrite <- !app_assoc. reflexivity.
Qed.

(** The microtasks after a handler that left one such call suspended. *)
Lemma drainMicrotasks_passthrough (p : Suspended) (w : World E) (l : string) :
  suspended w = [p] ->
  pendingRequest p = None ->
  activeEditor w = true ->
  getLine (to (transcribedLines w)) (editor w) = Some l ->
  let start := {| line := from (transcribedLines w); ch := 0 |} in
  let stop := {| line := to (transcribedLines w); ch := Z.of_nat (String.length l) |} in
  drainMicrotasks w
  = (Normal tt,
     setActiveEditor false
       (setEffects (effects w
                    ++ [EditorReplaceRange (pendingText p) start stop
                          (isConnected (editor w));
                        CmDispatch transcriptionEnd])
          (setEditor (cmDispatch transcriptionEnd
                        (replaceRange (pendingText p) start stop (editor w)))
             (setTranscribedLines emptyRange (setSuspended [] w))))).
Proof.
  intros Hs Hp Hheld Hline start stop.
  unfold drainMicrotasks, bind at 1, gets at 1. rewrite Hs.
  unfold hasRequest. cbn [filter]. rewrite Hp. cbn [negb resumeAll].
  unfold bind at 1, modify at 1.
  unfold bind at 1.
  rewrite (resumePostProcess_passthrough p (Parsed None) (setSuspended [] w) l Hp Hheld Hline).
  reflexivity.
Qed.

(** X25. With the rewrite switched off, a stop that is not immediate is
    over within its turn: no request is issued and nothing stays
    suspended; after the teardown the transcribed lines are written over
    with the very text that was read from them, the end of transcription
    is signalled, the range is emptied and the editor released. *)
Theorem X25_stop_without_rewrite_ends_in_its_turn :
  forall (w : World E) (text l : string),
    isTranscribing w = true -> SessionSpec.live w ->
    from (transcribedLines w) <> (-1)%Z ->
    SessionSpec.transcribedText w = Some text ->
    websocket w = Some OPEN ->
    suspended w = [] ->
    requestFor (settings w) (apiKey w) text = None ->
    getLine (to (transcribedLines w)) (cmDispatch postprocessStart (editor w)) = Some l ->
    let w' := step (StopTranscription false) w in
    let start := {| line := from (transcribedLines w); ch := 0 |} in
    let stop := {| line := to (transcribedLines w); ch := Z.of_nat (String.length l) |} in
    suspended w' = [] /\ isTranscribing w' = false /\ websocket w' = None
    /\ transcribedLines w' = emptyRange /\ activeEditor w' = false
    /\ effects w'
       = (effects w ++ CmDispatch postprocessStart :: SessionSpec.teardown
          ++ [EditorReplaceRange text start stop
                (isConnected (cmDispatch postprocessStart (editor w)));
              CmDispatch transcriptionEnd])%list.
Proof.
  intros w text l Hrec Hlive Hfrom Htext Hws Hs Hreq Hline w' start stop.
  assert (Hstop : stopTranscription false w
                  = (Normal tt,
                     setWebsocket None
                       (setEffects
                          ((effects w ++ [CmDispatch postprocessStart])
                           ++ SessionSpec.teardown)
                          (setMicrophone (Microphone.stopRecording (microphone w))
                             (setIsTranscribing false
                                (setSuspended [{| pendingText := text;
                                                  pendingRequest := None |}]
                                   (setEffects (effects w ++ [CmDispatch postprocessStart])
                                      (setEditor (cmDispatch postprocessStart (editor w))
                                         w)))))))).
  { rewrite (stopTranscription_transcribing w false Hrec).
    rewrite (runPostProcess_suspends w text Hlive Hfrom Htext).
    cbv zeta. rewrite Hreq, Hs. cbn [snd SessionSpec.requestEffect app].
    rewrite teardown_open by exact Hws. reflexivity. }
  assert (Hstep : w' = snd (drainMicrotasks (snd (stopTranscription false w))))
    by reflexivity.
  rewrite Hstop in Hstep. cbn [snd] in Hstep.
  rewrite (drainMicrotasks_passthrough
             {| pendingText := text; pendingRequest := None |} _ l) in Hstep;
    [| reflexivity | reflexivity | apply Hlive | exact Hline].
  rewrite Hstep. js_cbn.
  split; [reflexivity|]. split; [reflexivity|]. split; [reflexivity|].
  split; [reflexivity|]. split; [reflexivity|].
  rewrite <- !app_assoc. reflexivity.
Qed.

(** X21. When a suspended post-processing resumes and the last line of the
    range can no longer be read, the editor's text is not written: the
    error is logged, the range is emptied, the end of transcription is
    signalled if the editor is still held, and the editor is released. *)
Theorem X21_missing_line_skips_write :
  forall (w : World E) (p : Suspended) (reply : Reply),
    getLine (to (transcribedLines w)) (editor w) = None ->
    exists console w',
      resumePostProcess p reply w = (Normal tt, w') /\
      Forall (eq ConsoleError) console /\
      effects w' = (effects w ++ console
                    ++ ConsoleError
                       :: (if activeEditor w then [CmDispatch transcriptionEnd] else []))%list /\
      editor w' = (if activeEditor w then cmDispatch transcriptionEnd (editor w)
                   else editor w) /\
      transcribedLines w' = emptyRange /\ activeEditor w' = false.
Proof.
  intros w p reply Hline.
  unfold resumePostProcess, async.
  destruct (pendingRequest p) as [r|]; [destruct (parseReply reply) as [response|]|].
  1, 3: exists [].
  3: exists [ConsoleError].
  all: js_run; rewrite Hline; js_run.
  all: destruct (activeEditor w) eqn:Hheld; js_run.
  all: eexists; (split; [reflexivity|]); (split; [repeat constructor|]).
  all: js_cbn; rewrite <- ?app_assoc; repeat split.
Qed.

End SessionMore.

(** A second start, and a start without a token. *)
Lemma X15_start_guard_and_outcomes_witness :
  startTranscription (Some "token") true Scenario.recording
  = (Normal tt, Scenario.recording)
  /\ startTranscription None true Scenario.fresh
     = (Normal tt,
        setEffects (effects Scenario.fresh ++ [ConsoleError; ConsoleError])
          Scenario.fresh).
Proof.
  split.
  - apply (proj1 (@X15_start_guard_and_outcomes Plain.Editor Plain.host
                    Scenario.recording (Some "token") true)).
    reflexivity.
  - apply (proj1 (proj2 (@X15_start_guard_and_outcomes Plain.Editor Plain.host
                           Scenario.fresh None true))).
    reflexivity.
Defined.

(** A stop right after the start, before the socket has opened. *)
Lemma X16_stop_while_connecting_throws_witness :
  let w := step (StartTranscription (Some "token") true) Scenario.fresh in
  fst (stopTranscription false w) = Throw InvalidStateError
  /\ websocket (snd (stopTranscription false w)) = Some CONNECTING.
Proof.
  intros w.
  destruct (@X16_stop_while_connecting_throws Plain.Editor Plain.host w false eq_refl eq_refl)
    as (Hthrow & _ & _ & Hws & _).
  split; assumption.
Defined.

(** A stop when the document has lost its last lines. *)
Lemma X20_unreadable_lines_skip_rewrite_witness :
  let w := step (HostUpdate (Plain.at_ ["Monday"] {| line := 0; ch := 0 |}))
             Scenario.dictated in
  exists w',
    stopTranscription false w = (Normal tt, w') /\
    suspended w' = [] /\ transcribedLines w' = emptyRange.
Proof.
  intros w.
  destruct (@X20_unreadable_lines_skip_rewrite Plain.Editor Plain.host w)
    as (w' & Hrun & _ & Hs & Hlines & _).
  - reflexivity.
  - split; reflexivity.
  - vm_compute. discriminate.
  - reflexivity.
  - reflexivity.
  - exists w'. repeat split; assumption.
Defined.

(** The reply arrives after the document has lost its last lines. *)
Lemma X21_missing_line_skips_write_witness :
  let waiting := step (StopTranscription false) Scenario.dictated in
  let w := step (HostUpdate (Plain.at_ ["Monday"] {| line := 0; ch := 0 |})) waiting in
  exists w',
    resumePostProcess {| pendingText := "hello"; pendingRequest := None |}
      (Parsed (Some "Hello.")) w = (Normal tt, w') /\
    Plain.doc (editor w') = ["Monday"] /\ transcribedLines w' = emptyRange.
Proof.
  intros waiting w.
  destruct (@X21_missing_line_skips_write Plain.Editor Plain.host w
              {| pendingText := "hello"; pendingRequest := None |}
              (Parsed (Some "Hello.")) eq_refl)
    as (console & w' & Hrun & _ & _ & Hed & Hlines & _).
  exists w'. split; [exact Hrun|]. split; [|exact Hlines].
  rewrite Hed. reflexivity.
Defined.

(** A transcript after the document is closed. *)
Lemma X13_failed_check_writes_nothing_witness :
  let w := Scenario.closeDocument Scenario.dictated in
  editor (snd (handleFinalTranscript "and more." w)) = editor w
  /\ isTranscribing (snd (handleFinalTranscript "and more." w)) = false.
Proof.
  intros w.
  destruct (@X13_failed_check_writes_nothing Plain.Editor Plain.host w "and more.")
    with (handler := handleFinalTranscript (E := Plain.Editor) "and more.")
    as (Hed & _ & Hrec & _).
  - intros [_ Hattached]. vm_compute in Hattached. discriminate.
  - right. reflexivity.
  - split; assumption.
Defined.

(** A stop on a session that never started. *)
Lemma X11_stop_twice_is_stop_once_witness :
  stopTranscription false Scenario.fresh = (Normal tt, Scenario.fresh).
Proof.
  apply (proj1 (@X11_stop_twice_is_stop_once Plain.Editor Plain.host
                  Scenario.fresh false true)).
  reflexivity.
Defined.

(** A message of another type. *)
Lemma X14_onmessage_never_throws_witness :
  onmessage "SessionBegins" "ignored" Scenario.recording
  = (Normal tt, Scenario.recording).
Proof.
  apply (proj2 (proj2 (@X14_onmessage_never_throws Plain.Editor Plain.host
                         Scenario.recording "SessionBegins" "ignored")));
    discriminate.
Defined.

(** Thirteen blocks on an open socket: one frame is written. *)
Lemma X19_frames_reach_socket_in_order_witness :
  effects (run (map WorkletMessage (map MicrophoneSpec.renderQuantum (seq 0 13)))
             Scenario.recording)
  = (effects Scenario.recording
     ++ map SocketSendAudio
          (snd (Microphone.feed (map MicrophoneSpec.renderQuantum (seq 0 13))
                  (microphone Scenario.recording))))%list.
Proof.
  apply (@X19_frames_reach_socket_in_order Plain.Editor Plain.host); reflexivity.
Defined.

(** A stop right after the socket has opened, and a transcript after it. *)
Lemma X22_stop_with_nothing_dictated_keeps_editor_witness :
  let stopped := snd (stopTranscription false Scenario.recording) in
  isTranscribing stopped = false /\ activeEditor stopped = true
  /\ Plain.doc (editor (snd (handlePartialTranscript "late" stopped)))
     = ["Monday"; "Shopping"; "Calls"; "late"].
Proof.
  intros stopped.
  destruct (@X22_stop_with_nothing_dictated_keeps_editor Plain.Editor Plain.host
              Scenario.recording eq_refl (conj eq_refl eq_refl) eq_refl)
    as (Hidle & Hheld & _).
  split; [exact Hidle|]. split; [exact Hheld|]. reflexivity.
Defined.

(** A transcript on a live editor, the flag set and unset. *)
Lemma X23_transcripts_do_not_consult_flag_witness :
  handlePartialTranscript "hello" (setIsTranscribing false Scenario.recording)
  = (fst (handlePartialTranscript "hello" Scenario.recording),
     setIsTranscribing false (snd (handlePartialTranscript "hello" Scenario.recording))).
Proof.
  apply (proj1 (@X23_transcripts_do_not_consult_flag Plain.Editor Plain.host
                  Scenario.recording "hello" false (conj eq_refl eq_refl))).
Defined.

(** The rewrite settles on the session that asked for it; a transcript
    follows. *)
Lemma X17_settled_rewrite_ends_any_session_witness :
  let settled := snd (resumePostProcess
                        {| pendingText := "hello"; pendingRequest := None |}
                        RequestRejected Scenario.dictated) in
  activeEditor settled = false
  /\ isTranscribing (snd (handlePartialTranscript "again" settled)) = false.
Proof.
  intros settled.
  destruct (@X17_settled_rewrite_ends_any_session Plain.Editor Plain.host
              Scenario.dictated
              {| pendingText := "hello"; pendingRequest := None |}
              RequestRejected "again")
    as (Hheld & _ & Hnext).
  split; [exact Hheld|].
  apply (Hnext (handlePartialTranscript "again")). left. reflexivity.
Defined.

(** The dictated note, the rewrite switched off in the settings. *)
Lemma X25_stop_without_rewrite_ends_in_its_turn_witness :
  let w := ScenarioMore.dictatedPlain in
  suspended (step (StopTranscription false) w) = []
  /\ Plain.doc (editor (step (StopTranscription false) w))
     = ["Monday"; "Shopping"; "Calls"; "hello"].
Proof.
  intros w.
  destruct (@X25_stop_without_rewrite_ends_in_its_turn Plain.Editor Plain.host
              w "hello" "hello")
    as (Hs & _).
  - reflexivity.
  - split; reflexivity.
  - vm_compute. discriminate.
  - reflexivity.
  - reflexivity.
  - reflexivity.
  - reflexivity.
  - reflexivity.
  - split; [exact Hs | reflexivity].
Defined.
